(** * SuperDARN theses and dissertations: parse_theses.c and parse_theses_year.c

    Both programs read a text file of thesis records (seven field lines and a
    separator line per record), sort the records with [qsort] and print an
    HTML fragment on stdout.  [parse_theses.c] keeps the records in a fixed
    array of [MAX_DOC] structs and sorts by author; [parse_theses_year.c]
    grows the array with [realloc] and sorts by year.

    The embedding follows the C text function by function.  A [char] buffer
    holding a C string is a [string] (the bytes before the terminating NUL);
    an array of structs is a [list thesis] whose element [cnt] is changed
    in place with [alter]; a pointer into it is an address with the struct
    found there; the calls to [fprintf] are recorded, in order, with their
    format and arguments, and [sprintf] turns a call into the text it puts
    on the stream. *)

From Stdlib Require Import ZArith Ascii String List Lia ZifyNat Permutation.
From stdpp Require Import base list strings pretty.

Local Open Scope Z_scope.

(** ** C characters and the libc string functions the programs call *)

Module Libc.

(** The value of a byte read through [unsigned char]. *)
Definition code (c : ascii) : Z := Z.of_N (N_of_ascii c).

(** A plain [char] promoted to [int]: whether plain [char] is signed is the
    compiler's choice, so it is a parameter wherever the promotion matters. *)
Definition int_of_char (char_signed : bool) (c : ascii) : Z :=
  if char_signed && (128 <=? code c) then code c - 256 else code c.

(** An [int] stored back into a [char]. *)
Definition char_of_int (z : Z) : ascii := ascii_of_N (Z.to_N (z mod 256)).

(** [toupper] in the C locale, as the C library the programs run with has
    it.  A lower-case letter comes back in upper case.  A value from -128
    to -2, which is a byte from 128 to 254 read through a signed [char],
    comes back as that byte.  Any other value comes back unchanged, [EOF]
    (-1) among them. *)
Definition toupper (c : Z) : Z :=
  if (97 <=? c) && (c <=? 122) then c - 32
  else if (-128 <=? c) && (c <? -1) then c + 256
  else c.

(** [strcmp]: the difference of the first two bytes that differ, read as
    [unsigned char]; the end of a string counts as the byte 0. *)
Fixpoint strcmp (s1 s2 : string) : Z :=
  match s1, s2 with
  | EmptyString, EmptyString => 0
  | EmptyString, String c2 _ => 0 - code c2
  | String c1 _, EmptyString => code c1 - 0
  | String c1 r1, String c2 r2 =>
      if Ascii.eqb c1 c2 then strcmp r1 r2 else code c1 - code c2
  end.

(** The bytes that end a line for [strcspn (line, "\r\n")], and NUL, where
    the C string ends anyway. *)
Definition is_line_end (c : ascii) : bool :=
  Ascii.eqb c "010"%char || Ascii.eqb c "013"%char || Ascii.eqb c "000"%char.

(** [line[strcspn(line, "\r\n")] = 0] followed by [strcpy (dst, line)]: what
    lands in [dst] is the line up to its first CR, LF or NUL. *)
Fixpoint trim_line (line : string) : string :=
  match line with
  | EmptyString => EmptyString
  | String c rest => if is_line_end c then EmptyString else String c (trim_line rest)
  end.

End Libc.

(** ** The struct and the pointers [qsort] hands to [compare] *)

Definition STRLEN : nat := 512.
Definition MAX_DOC : nat := 500.

(** [struct thesis]: seven [char[STRLEN]] members, in this order. *)
Record thesis := Thesis {
  author : string;
  year : string;
  title : string;
  advisor : string;
  affiliation : string;
  degree : string;
  url : string
}.

Global Instance thesis_eq_dec : EqDecision thesis.
Proof. solve_decision. Defined.

Definition sizeof_thesis : Z := 7 * Z.of_nat STRLEN.

(** [offsetof (struct thesis, year)]: [year] follows the [STRLEN] bytes of
    [author]. *)
Definition offsetof_year : Z := Z.of_nat STRLEN.

(** A [struct thesis *]: the address it holds and the struct found there. *)
Record ptr := Ptr { addr : Z; target : thesis }.

(** [&entry[i]] for an array that starts at [base]. *)
Definition elem_ptr (base : Z) (i : nat) (t : thesis) : ptr :=
  Ptr (base + Z.of_nat i * sizeof_thesis) t.

(** [strcpy (dst, line)] into one member of a struct. *)
Definition set_author (s : string) (t : thesis) : thesis :=
  Thesis s (year t) (title t) (advisor t) (affiliation t) (degree t) (url t).
Definition set_year (s : string) (t : thesis) : thesis :=
  Thesis (author t) s (title t) (advisor t) (affiliation t) (degree t) (url t).
Definition set_title (s : string) (t : thesis) : thesis :=
  Thesis (author t) (year t) s (advisor t) (affiliation t) (degree t) (url t).
Definition set_advisor (s : string) (t : thesis) : thesis :=
  Thesis (author t) (year t) (title t) s (affiliation t) (degree t) (url t).
Definition set_affiliation (s : string) (t : thesis) : thesis :=
  Thesis (author t) (year t) (title t) (advisor t) s (degree t) (url t).
Definition set_degree (s : string) (t : thesis) : thesis :=
  Thesis (author t) (year t) (title t) (advisor t) (affiliation t) s (url t).
Definition set_url (s : string) (t : thesis) : thesis :=
  Thesis (author t) (year t) (title t) (advisor t) (affiliation t) (degree t) s.

(** [buf[0]] of a buffer holding the C string [s]: its first byte, or the
    terminating NUL when [s] is empty. *)
Definition first_char (s : string) : ascii :=
  match s with
  | EmptyString => "000"%char
  | String c _ => c
  end.

(** A C string has no NUL byte inside. *)
Fixpoint is_cstring (s : string) : bool :=
  match s with
  | EmptyString => true
  | String c r => negb (Ascii.eqb c "000"%char) && is_cstring r
  end.

Definition cstrings (t : thesis) : bool :=
  is_cstring (author t) && is_cstring (year t) && is_cstring (title t) &&
  is_cstring (advisor t) && is_cstring (affiliation t) &&
  is_cstring (degree t) && is_cstring (url t).

(** ** The two comparators *)

Section Compare.

Variable char_signed : bool.

(** [strcpy (author1, t->author); author1[0] = toupper (author1[0]);]
    The copy is local to [compare]; the struct is not written. *)
Definition upper_first (s : string) : string :=
  match s with
  | EmptyString => EmptyString
  | String c r =>
      String (Libc.char_of_int (Libc.toupper (Libc.int_of_char char_signed c))) r
  end.

(** [compare] of parse_theses.c.  [t1->year] and [t2->year] are arrays, so
    [t1->year < t2->year] compares the addresses of the two [year]
    members. *)
Definition compare_alpha (s1 s2 : ptr) : Z :=
  let t1 := target s1 in
  let t2 := target s2 in
  let author1 := upper_first (author t1) in
  let author2 := upper_first (author t2) in
  let authorcompare := Libc.strcmp author1 author2 in
  if authorcompare =? 0 then
    if addr s1 + offsetof_year <? addr s2 + offsetof_year then -1
    else if addr s1 + offsetof_year >? addr s2 + offsetof_year then 1
    else 0
  else authorcompare.

(** [compare] of parse_theses_year.c. *)
Definition compare_year (s1 s2 : ptr) : Z :=
  let t1 := target s1 in
  let t2 := target s2 in
  let yearcompare := Libc.strcmp (year t2) (year t1) in
  if yearcompare =? 0 then
    let author1 := upper_first (author t1) in
    let author2 := upper_first (author t2) in
    let authorcompare := Libc.strcmp author1 author2 in
    authorcompare
  else yearcompare.

End Compare.

(** ** The calls to [fprintf] *)

Inductive arg :=
  | Str (s : string)
  | Int (z : Z).

(** One [fprintf (stream, fmt, args...)]. *)
Record call := Fprintf { fmt : string; args : list arg }.

Global Instance arg_eq_dec : EqDecision arg.
Proof. solve_decision. Defined.
Global Instance call_eq_dec : EqDecision call.
Proof. solve_decision. Defined.

Definition show_arg (a : arg) : string :=
  match a with
  | Str s => s
  | Int z => pretty z
  end.

(** The text a call produces: every conversion ([%s], [%d]) is replaced by
    the next argument; the programs use no other conversion and no [%%]. *)
Fixpoint sprintf (f : string) (l : list arg) : string :=
  match f with
  | EmptyString => EmptyString
  | String c rest =>
      if Ascii.eqb c "%"%char then
        match rest with
        | EmptyString => EmptyString
        | String _ rest' =>
            match l with
            | a :: l' => show_arg a +:+ sprintf rest' l'
            | [] => sprintf rest' []
            end
        end
      else String c (sprintf rest l)
  end.

Definition text_of (c : call) : string := sprintf (fmt c) (args c).

(** What a sequence of calls leaves on the stream. *)
Fixpoint render (cs : list call) : string :=
  match cs with
  | [] => EmptyString
  | c :: cs' => text_of c +:+ render cs'
  end.

(** ** Format strings, as they stand in the two programs *)

Module Fmt.

Definition nl : string := String "010"%char EmptyString.
Definition dq : string := String "034"%char EmptyString.

Definition begin_marker : string :=
  "<!-- *** BEGIN THESIS/DISSERTATION CONTENT HERE *** --!>" +:+ nl.
Definition div_open : string :=
  "<div align=" +:+ dq +:+ "center" +:+ dq +:+ ">" +:+ nl +:+ nl.
Definition jump_to : string := "  <b>Jump to:</b>&nbsp;" +:+ nl.
Definition alph_link : string :=
  "  <a href=" +:+ dq +:+ "#%s" +:+ dq +:+ ">%s</a>&nbsp;|" +:+ nl.
Definition alph_link_last : string :=
  "  <a href=" +:+ dq +:+ "#%s" +:+ dq +:+ ">%s</a>" +:+ nl +:+ nl.
Definition br : string := "  <br><br>" +:+ nl +:+ nl.
Definition alph_anchor : string := "  <a name=%s></a>" +:+ nl +:+ nl.

Definition table_open : string :=
  "  <table style=" +:+ dq +:+ "border:1px solid black; width:600px;" +:+ dq
  +:+ ">" +:+ nl.
Definition row_author : string := "    <tr><td><b>Author:</b> %s</td></tr>" +:+ nl.
Definition row_year : string := "    <tr><td><b>Year:</b> %s</td></tr>" +:+ nl.
Definition row_title : string := "    <tr><td><b>Title:</b> %s</td></tr>" +:+ nl.
Definition row_advisor : string := "    <tr><td><b>Advisor:</b> %s</td></tr>" +:+ nl.
Definition row_affiliation : string :=
  "    <tr><td><b>Affiliation:</b> %s</td></tr>" +:+ nl.
Definition row_degree : string := "    <tr><td><b>Degree:</b> %s</td>".
Definition row_end : string := "</tr>" +:+ nl.
Definition url_cell : string :=
  "<td align=" +:+ dq +:+ "right" +:+ dq +:+ "><a href=" +:+ dq +:+ "%s" +:+ dq
  +:+ " target=" +:+ dq +:+ "_blank" +:+ dq +:+ ">URL</a></td></tr>" +:+ nl.
Definition table_close : string := "  </table><br>" +:+ nl +:+ nl.

Definition n_items : string :=
  "  <center>Number of items: <b>%d</b></center>" +:+ nl.
Definition n_degrees : string := "  <center>(%d MS | %d PhD)</center>" +:+ nl +:+ nl.
Definition div_close : string := "</div>" +:+ nl.
Definition end_marker : string :=
  "<!-- *** END THESIS/DISSERTATION CONTENT HERE *** --!>" +:+ nl.

Definition nav_open : string :=
  "  <div style=" +:+ dq +:+ "width:800px;" +:+ dq +:+ ">" +:+ nl.
Definition jump_to_year : string := "    <b>Jump to:</b>&nbsp;" +:+ nl.
Definition year_link : string :=
  "    <a href=" +:+ dq +:+ "#%s" +:+ dq +:+ ">%s</a>&nbsp;".
Definition year_link_next : string :=
  "|" +:+ nl +:+ "    <a href=" +:+ dq +:+ "#%s" +:+ dq +:+ ">%s</a>&nbsp;".
Definition nav_close : string := nl +:+ "  </div>" +:+ nl.
Definition year_anchor : string := "  <a name=%s></a>" +:+ nl.
Definition year_heading : string := "  <center><b>%s</b></center><br>" +:+ nl +:+ nl.

Definition not_found : string := "File not found: %s" +:+ nl.
Definition too_many : string := "Too many entries, need to increase MAX_DOC" +:+ nl.
Definition parse_failed : string := "Failed to parse input text file." +:+ nl.

End Fmt.

(** ** Reading the input *)

(** A [FILE *] open for reading: the bytes not read yet. *)
Definition FILE := string.

(** The bytes [fgets] takes when it may still store [n] of them: up to and
    including the first newline, and no more than [n]. *)
Fixpoint fgets_chars (n : nat) (fp : FILE) : string * FILE :=
  match n, fp with
  | S n', String c fp' =>
      if Ascii.eqb c "010"%char then (String c EmptyString, fp')
      else let '(line, rest) := fgets_chars n' fp' in (String c line, rest)
  | _, _ => (EmptyString, fp)
  end.

(** [fgets (line, size, fp)]: [None] is the NULL it returns at end of file. *)
Definition fgets (size : nat) (fp : FILE) : option (string * FILE) :=
  match fp with
  | EmptyString => None
  | String _ _ => Some (fgets_chars (size - 1) fp)
  end.

(** The lines the loop [while (fgets (line, STRLEN, fp) != NULL)] sees, in
    order.  Every call takes at least one byte, so the length of the file
    is fuel enough. *)
Fixpoint lines_from (fuel : nat) (fp : FILE) : list string :=
  match fuel with
  | O => []
  | S fuel' =>
      match fgets STRLEN fp with
      | None => []
      | Some (line, fp') => line :: lines_from fuel' fp'
      end
  end.

Definition read_lines (fp : FILE) : list string :=
  lines_from (String.length fp) fp.

(** ** [parse_text] *)

Section Parse.

(** What a struct holds before anything is stored in it (the array on the
    stack of [main], the memory [malloc] and [realloc] hand out): some
    bytes the programs never chose. *)
Variable indet : thesis.

(** [parse_text] of parse_theses.c, from the state the loop is in: [i] is
    the member the next line goes to, [cnt] the number of entries read.
    The result is the returned [int], the array, and what went to stderr. *)
Fixpoint parse_lines_alpha (lines : list string) (i cnt : nat)
    (entry : list thesis) : Z * list thesis * list call :=
  match lines with
  | [] => (Z.of_nat cnt, entry, [])
  | line :: lines' =>
      let line := Libc.trim_line line in
      let '(entry, cnt) :=
        match i with
        | 0 => (alter (set_author line) cnt entry, cnt)
        | 1 => (alter (set_year line) cnt entry, cnt)
        | 2 => (alter (set_title line) cnt entry, cnt)
        | 3 => (alter (set_advisor line) cnt entry, cnt)
        | 4 => (alter (set_affiliation line) cnt entry, cnt)
        | 5 => (alter (set_degree line) cnt entry, cnt)
        | 6 => (alter (set_url line) cnt entry, S cnt)
        | _ => (entry, cnt)
        end%nat in
      if (MAX_DOC <=? cnt)%nat then (-1, entry, [Fprintf Fmt.too_many []])
      else
        let i := S i in
        let i := if (i =? 8)%nat then 0%nat else i in
        parse_lines_alpha lines' i cnt entry
  end.

Definition parse_text_alpha (fp : FILE) (entry : list thesis)
    : Z * list thesis * list call :=
  parse_lines_alpha (read_lines fp) 0 0 entry.

(** [case 0] of parse_theses_year.c: room for one more struct.  [None] is
    the NULL pointer. *)
Definition grow (entry : option (list thesis)) (cnt : nat)
    : option (list thesis) :=
  match entry with
  | None => Some [indet]
  | Some arr => Some (resize (S cnt) indet arr)
  end.

(** [parse_text] of parse_theses_year.c: the returned pointer and [*num]. *)
Fixpoint parse_lines_year (lines : list string) (i cnt : nat)
    (entry : option (list thesis)) : option (list thesis) * nat :=
  match lines with
  | [] => (entry, cnt)
  | line :: lines' =>
      let line := Libc.trim_line line in
      let '(entry, cnt) :=
        match i with
        | 0 => (alter (set_author line) cnt <$> grow entry cnt, cnt)
        | 1 => (alter (set_year line) cnt <$> entry, cnt)
        | 2 => (alter (set_title line) cnt <$> entry, cnt)
        | 3 => (alter (set_advisor line) cnt <$> entry, cnt)
        | 4 => (alter (set_affiliation line) cnt <$> entry, cnt)
        | 5 => (alter (set_degree line) cnt <$> entry, cnt)
        | 6 => (alter (set_url line) cnt <$> entry, S cnt)
        | _ => (entry, cnt)
        end%nat in
      let i := S i in
      let i := if (i =? 8)%nat then 0%nat else i in
      parse_lines_year lines' i cnt entry
  end.

Definition parse_text_year (fp : FILE) : option (list thesis) * nat :=
  parse_lines_year (read_lines fp) 0 0 None.

End Parse.

(** ** [write_html] *)

(** [entry[0]], ..., [entry[n-1]], as the loops [for (i=0; i<n; i++)] read
    them; [None] when the array is shorter than that. *)
Definition elems (entry : list thesis) (n : nat) : option (list thesis) :=
  if decide (n <= length entry)%nat then Some (take n entry) else None.

(** One pass of a loop over the entries: what it prints and the state it
    leaves. *)
Fixpoint for_each {S : Type} (body : thesis -> S -> list call * S)
    (es : list thesis) (st : S) : list call * S :=
  match es with
  | [] => ([], st)
  | e :: es' =>
      let '(cs, st) := body e st in
      let '(cs', st) := for_each body es' st in
      (cs ++ cs', st)
  end.

(** Counting by degree: the state is [(ms_cnt, phd_cnt)]. *)
Definition count_degree (e : thesis) (c : nat * nat) : nat * nat :=
  let '(ms_cnt, phd_cnt) := c in
  if Libc.strcmp (degree e) "MS" =? 0 then (S ms_cnt, phd_cnt)
  else if Libc.strcmp (degree e) "PhD" =? 0 then (ms_cnt, S phd_cnt)
  else (ms_cnt, phd_cnt).

(** The row that starts with the degree: closed at once when [url[0]] is
    NUL, followed by the link cell otherwise. *)
Definition degree_row (e : thesis) : list call :=
  [ Fprintf Fmt.row_degree [Str (degree e)];
    if Ascii.eqb (first_char (url e)) "000"%char
    then Fprintf Fmt.row_end []
    else Fprintf Fmt.url_cell [Str (url e)] ].

(** The table of one entry; the same lines in both programs. *)
Definition table (e : thesis) : list call :=
  [ Fprintf Fmt.table_open [];
    Fprintf Fmt.row_author [Str (author e)];
    Fprintf Fmt.row_year [Str (year e)];
    Fprintf Fmt.row_title [Str (title e)];
    Fprintf Fmt.row_advisor [Str (advisor e)];
    Fprintf Fmt.row_affiliation [Str (affiliation e)] ]
  ++ degree_row e
  ++ [ Fprintf Fmt.table_close [] ].

Definition footer (n ms_cnt phd_cnt : nat) : list call :=
  [ Fprintf Fmt.n_items [Int (Z.of_nat n)];
    Fprintf Fmt.n_degrees [Int (Z.of_nat ms_cnt); Int (Z.of_nat phd_cnt)];
    Fprintf Fmt.div_close [];
    Fprintf Fmt.end_marker [] ].

Section Alpha.

Variable char_signed : bool.

Definition alph : list string := ["A-G"; "H-N"; "O-U"; "V-Z"].

(** [alph[j]]. *)
Definition alph_at (j : nat) : string := nth j alph EmptyString.

(** The four links under "Jump to:", printed whatever the entries are. *)
Definition alpha_header : list call :=
  [ Fprintf Fmt.begin_marker [];
    Fprintf Fmt.div_open [];
    Fprintf Fmt.jump_to [] ]
  ++ map (fun i => Fprintf Fmt.alph_link [Str (alph_at i); Str (alph_at i)])
         (seq 0 3)
  ++ [ Fprintf Fmt.alph_link_last [Str (alph_at 3); Str (alph_at 3)];
       Fprintf Fmt.br [] ].

(** The body of the loop over the entries; the state is [j] and the two
    counters. *)
Definition alpha_body (e : thesis) (st : nat * (nat * nat))
    : list call * (nat * (nat * nat)) :=
  let '(j, counts) := st in
  let counts := count_degree e counts in
  let '(anchor, j) :=
    if (j <? 4)%nat &&
       (Libc.int_of_char char_signed (first_char (alph_at j))
        <=? Libc.toupper (Libc.int_of_char char_signed (first_char (author e))))
    then ([Fprintf Fmt.alph_anchor [Str (alph_at j)]], S j)
    else ([], j) in
  (anchor ++ table e, (j, counts)).

(** [write_html] of parse_theses.c; [None] stands for a read outside the
    array. *)
Definition write_html_alpha (entry : list thesis) (cnt : nat)
    : option (list call) :=
  match elems entry cnt with
  | None => None
  | Some es =>
      let '(body, (_, (ms_cnt, phd_cnt))) :=
        for_each alpha_body es (0%nat, (0%nat, 0%nat)) in
      Some (alpha_header ++ body ++ footer cnt ms_cnt phd_cnt)
  end.

End Alpha.

(** The loop that builds the year links; the state is the local [year]. *)
Definition year_nav_body (e : thesis) (y : string) : list call * string :=
  let yearcompare := Libc.strcmp y (year e) in
  if negb (yearcompare =? 0)
  then ([Fprintf Fmt.year_link_next [Str (year e); Str (year e)]], year e)
  else ([], y).

(** The loop over the entries; the state is the local [year] and the two
    counters. *)
Definition year_body (e : thesis) (st : string * (nat * nat))
    : list call * (string * (nat * nat)) :=
  let '(y, counts) := st in
  let counts := count_degree e counts in
  let yearcompare := Libc.strcmp y (year e) in
  let '(label, y) :=
    if negb (yearcompare =? 0)
    then ([ Fprintf Fmt.year_anchor [Str (year e)];
            Fprintf Fmt.year_heading [Str (year e)] ], year e)
    else ([], y) in
  (label ++ table e, (y, counts)).

(** [write_html] of parse_theses_year.c.  [entry[0].year] is read before
    either loop, whatever [num] is: [None] stands for that read through a
    NULL pointer, and for a read outside the array. *)
Definition write_html_year (entry : option (list thesis)) (num : nat)
    : option (list call) :=
  match entry with
  | None => None
  | Some arr =>
      match arr !! 0%nat, elems arr num with
      | Some e0, Some es =>
          let '(links, _) := for_each year_nav_body es (year e0) in
          let '(body, (_, (ms_cnt, phd_cnt))) :=
            for_each year_body es (year e0, (0%nat, 0%nat)) in
          Some ([ Fprintf Fmt.begin_marker [];
                  Fprintf Fmt.div_open [];
                  Fprintf Fmt.nav_open [];
                  Fprintf Fmt.jump_to_year [];
                  Fprintf Fmt.year_link [Str (year e0); Str (year e0)] ]
                ++ links
                ++ [ Fprintf Fmt.nav_close [];
                     Fprintf Fmt.br [];
                     Fprintf Fmt.year_anchor [Str (year e0)];
                     Fprintf Fmt.year_heading [Str (year e0)] ]
                ++ body
                ++ footer num ms_cnt phd_cnt)
      | _, _ => None
      end
  end.

(** ** [main] *)

(** How a run ends: the status [main] returns and the calls made on the two
    streams. *)
Record result := Result {
  status : Z;
  stdout : list call;
  stderr : list call
}.

Section Programs.

Variable char_signed : bool.
Variable indet : thesis.

(** [qsort] is libc's: all the programs fix is the comparator they pass.
    [qsort cmp es] is the order it leaves the structs [es] in. *)
Variable qsort : (ptr -> ptr -> Z) -> list thesis -> list thesis.

(** [fopen (fname, "r")]: the contents of the file, or [None] for NULL. *)
Variable fopen : string -> option FILE.

(** [qsort (entry, n, sizeof (struct thesis), compare)]: the first [n]
    structs of the array are reordered, the rest is left alone. *)
Definition qsort_array (cmp : ptr -> ptr -> Z) (entry : list thesis) (n : nat)
    : list thesis :=
  qsort cmp (take n entry) ++ drop n entry.

(** [fname]: [argv[1]] when there is one. *)
Definition input_name (argv : list string) : string :=
  match argv with
  | _ :: a :: _ => a
  | _ => "superdarn_theses.txt"
  end.

(** [main] of parse_theses.c; [None] stands for a run that reads outside
    its array. *)
Definition main_alpha (argv : list string) : option result :=
  let fname := input_name argv in
  match fopen fname with
  | None => Some (Result (-1) [] [Fprintf Fmt.not_found [Str fname]])
  | Some fp =>
      let '(cnt, entry, err) := parse_text_alpha fp (replicate MAX_DOC indet) in
      if cnt =? -1
      then Some (Result (-1) [] (err ++ [Fprintf Fmt.parse_failed []]))
      else
        let entry := qsort_array (compare_alpha char_signed) entry (Z.to_nat cnt) in
        match write_html_alpha char_signed entry (Z.to_nat cnt) with
        | Some out => Some (Result 0 out err)
        | None => None
        end
  end.

(** [main] of parse_theses_year.c; [None] stands for a run that reads
    through a NULL pointer. *)
Definition main_year (argv : list string) : option result :=
  let fname := input_name argv in
  match fopen fname with
  | None => Some (Result (-1) [] [Fprintf Fmt.not_found [Str fname]])
  | Some fp =>
      let '(entry, num) := parse_text_year indet fp in
      if Z.of_nat num =? -1
      then Some (Result (-1) [] [Fprintf Fmt.parse_failed []])
      else
        let entry :=
          (fun arr => qsort_array (compare_year char_signed) arr num) <$> entry in
        match write_html_year entry num with
        | Some out => Some (Result 0 out [])
        | None => None
        end
  end.

End Programs.

(** ** What the input and the output are expected to be *)

(** The member the [i]-th line of a group is copied to. *)
Definition assign (i : nat) (line : string) : thesis -> thesis :=
  match i with
  | 0 => set_author line
  | 1 => set_year line
  | 2 => set_title line
  | 3 => set_advisor line
  | 4 => set_affiliation line
  | 5 => set_degree line
  | 6 => set_url line
  | _ => id
  end%nat.

(** A struct after the lines [lines] went to its members [i], [i+1], ... *)
Fixpoint fill (i : nat) (lines : list string) (t : thesis) : thesis :=
  match lines with
  | [] => t
  | line :: lines' => fill (S i) lines' (assign i (Libc.trim_line line) t)
  end.

Definition record_of (a y t ad af d u : string) : thesis :=
  Thesis (Libc.trim_line a) (Libc.trim_line y) (Libc.trim_line t)
         (Libc.trim_line ad) (Libc.trim_line af) (Libc.trim_line d)
         (Libc.trim_line u).

(** The entries of a file read as groups of eight lines: seven members and
    one line that separates the group from the next.  A last group of
    fewer than seven lines is no entry. *)
Fixpoint records (lines : list string) : list thesis :=
  match lines with
  | a :: y :: t :: ad :: af :: d :: u :: rest =>
      record_of a y t ad af d u ::
      match rest with
      | [] => []
      | _ :: rest' => records rest'
      end
  | _ => []
  end.

(** The structs the lines of a file touch: its entries and, after them,
    the struct a last group of one to six lines is copied to, over what the
    struct held before. *)
Fixpoint layout (indet : thesis) (lines : list string) : list thesis :=
  match lines with
  | a :: y :: t :: ad :: af :: d :: u :: rest =>
      record_of a y t ad af d u ::
      match rest with
      | [] => []
      | _ :: rest' => layout indet rest'
      end
  | [] => []
  | _ => [fill 0 lines indet]
  end.

(** A letter in upper case, any other byte as it is. *)
Definition ascii_upper (c : ascii) : ascii :=
  if (97 <=? nat_of_ascii c)%nat && (nat_of_ascii c <=? 122)%nat
  then ascii_of_nat (nat_of_ascii c - 32)
  else c.

(** A string with its first character in upper case: the key the authors
    are compared by. *)
Definition normalized (s : string) : string :=
  match s with
  | EmptyString => EmptyString
  | String c r => String (ascii_upper c) r
  end.

(** A line of text before its terminator: no CR, LF or NUL in it. *)
Fixpoint plain (s : string) : bool :=
  match s with
  | EmptyString => true
  | String c r => negb (Libc.is_line_end c) && plain r
  end.

(** A text file made of the lines [ls], each ended by a newline. *)
Fixpoint text_file (ls : list string) : FILE :=
  match ls with
  | [] => EmptyString
  | l :: ls' => l +:+ Fmt.nl +:+ text_file ls'
  end.

(** The calls that belong to the table of an entry. *)
Definition table_fmts : list string :=
  [ Fmt.table_open; Fmt.row_author; Fmt.row_year; Fmt.row_title;
    Fmt.row_advisor; Fmt.row_affiliation; Fmt.row_degree; Fmt.row_end;
    Fmt.url_cell; Fmt.table_close ].

(** The calls of an output made with one of the formats [fs], in order. *)
Definition select (fs : list string) (out : list call) : list call :=
  filter (fun c => fmt c ∈ fs) out.

(** The number of tables an output opens. *)
Definition tables (out : list call) : nat :=
  length (select [Fmt.table_open] out).

(** The label in front of the entries of a year. *)
Definition year_label (y : string) : list call :=
  [ Fprintf Fmt.year_anchor [Str y]; Fprintf Fmt.year_heading [Str y] ].

(** Labels and tables as the year page is meant to show them: every entry
    has its table, with a label in front when its year is not the year of
    the entry before it, the first entry included. *)
Fixpoint labelled (prev : option string) (es : list thesis) : list call :=
  match es with
  | [] => []
  | e :: es' =>
      (if decide (prev = Some (year e)) then [] else year_label (year e))
      ++ table e ++ labelled (Some (year e)) es'
  end.

(** The values of a list in the order they first appear, each once. *)
Fixpoint first_seen (seen : list string) (l : list string) : list string :=
  match l with
  | [] => []
  | x :: l' =>
      if bool_decide (x ∈ seen) then first_seen seen l'
      else x :: first_seen (x :: seen) l'
  end.

Definition distinct (l : list string) : list string := first_seen [] l.

(** The values the local [year] of [write_html] takes in turn, after [y]:
    it moves to the year of an entry when [strcmp] tells them apart. *)
Fixpoint changes (y : string) (l : list string) : list string :=
  match l with
  | [] => []
  | x :: l' =>
      if negb (Libc.strcmp y x =? 0) then x :: changes x l' else changes y l'
  end.

(** Strings that never go up under [strcmp], each against the next. *)
Fixpoint descending (l : list string) : Prop :=
  match l with
  | x :: l' =>
      match l' with
      | [] => True
      | y :: _ => Libc.strcmp y x <= 0 /\ descending l'
      end
  | [] => True
  end.

Definition label_fmts : list string := [Fmt.year_anchor; Fmt.year_heading].

(** An array is in order for a comparator when [compare] does not put an
    element after its successor. *)
Definition in_order (cmp : ptr -> ptr -> Z) (base : Z) (es : list thesis) : Prop :=
  forall (i : nat) (t1 t2 : thesis),
    es !! i = Some t1 -> es !! S i = Some t2 ->
    cmp (elem_ptr base i t1) (elem_ptr base (S i) t2) <= 0.

(** A sort by insertion that compares the structs where [main] put them:
    one way [qsort] may go about its work. *)
Fixpoint insert_sorted (cmp : ptr -> ptr -> Z) (x : ptr) (l : list ptr) : list ptr :=
  match l with
  | [] => [x]
  | y :: l' => if cmp x y <=? 0 then x :: y :: l' else y :: insert_sorted cmp x l'
  end.

Definition insertion_qsort (cmp : ptr -> ptr -> Z) (es : list thesis) : list thesis :=
  map target (foldr (insert_sorted cmp) [] (imap (elem_ptr 0) es)).

(** Formats of the closing lines. *)
Definition footer_fmts : list string :=
  [ Fmt.n_items; Fmt.n_degrees; Fmt.div_close; Fmt.end_marker ].


(** ** Sample entries *)

Definition adams := Thesis "Adams" "2001" "T1" "Adv" "Aff" "MS" "".
Definition harris := Thesis "Harris" "2002" "T2" "Adv" "Aff" "PhD" "".
Definition zimmer := Thesis "Zimmer" "2003" "T3" "Adv" "Aff" "PhD" "".

Definition smith20 := Thesis "Smith, A." "2020" "T" "Adv" "Aff" "PhD" "".
Definition smith19 := Thesis "smith, A." "2019" "T" "Adv" "Aff" "MS" "".
Definition jones20 := Thesis "Jones, B." "2020" "T" "Adv" "Aff" "MS" "".

(** ** The text a table is expected to be *)

(** A row with its label and the value as it is. *)
Definition row_text (label value : string) : string :=
  "    <tr><td><b>" +:+ label +:+ ":</b> " +:+ value +:+ "</td></tr>" +:+ Fmt.nl.

(** The cell with the link: [u] is the address, as it is. *)
Definition link_cell_text (u : string) : string :=
  "<td align=" +:+ Fmt.dq +:+ "right" +:+ Fmt.dq +:+ "><a href=" +:+ Fmt.dq +:+ u
  +:+ Fmt.dq +:+ " target=" +:+ Fmt.dq +:+ "_blank" +:+ Fmt.dq +:+ ">URL</a></td>".

(** The row of the degree: one cell, and the link cell when there is a
    [url]. *)
Definition degree_row_text (e : thesis) : string :=
  "    <tr><td><b>Degree:</b> " +:+ degree e +:+ "</td>"
  +:+ (if decide (url e = EmptyString) then EmptyString else link_cell_text (url e))
  +:+ "</tr>" +:+ Fmt.nl.

(** The table of an entry, every member as it is stored. *)
Definition table_text (e : thesis) : string :=
  "  <table style=" +:+ Fmt.dq +:+ "border:1px solid black; width:600px;" +:+ Fmt.dq
  +:+ ">" +:+ Fmt.nl
  +:+ row_text "Author" (author e)
  +:+ row_text "Year" (year e)
  +:+ row_text "Title" (title e)
  +:+ row_text "Advisor" (advisor e)
  +:+ row_text "Affiliation" (affiliation e)
  +:+ degree_row_text e
  +:+ "  </table><br>" +:+ Fmt.nl +:+ Fmt.nl.

(** The entries of a text file, from its lines before their newline: the
    seven members are the lines themselves. *)
Fixpoint entries (ls : list string) : list thesis :=
  match ls with
  | a :: y :: t :: ad :: af :: d :: u :: rest =>
      Thesis a y t ad af d u ::
      match rest with
      | [] => []
      | _ :: rest' => entries rest'
      end
  | _ => []
  end.

(** A line [fgets] reads whole: no CR, LF or NUL in it and short enough for
    the buffer with its newline. *)
Definition text_line (l : string) : Prop :=
  plain l = true /\ (String.length l + 1 < STRLEN)%nat.

(** ** Sample files *)

(** Stands for memory nothing was stored in. *)
Definition junk := Thesis "?" "?" "?" "?" "?" "?" "?".

(** A group of eight lines: the seven members and a blank separator. *)
Definition sample_group : list string :=
  [ "Doe, J."; "2000"; "A thesis"; "An advisor"; "A university"; "MS";
    "http://example.org/doe"; "" ]%string.

(** A file of [n] such groups. *)
Definition groups_file (n : nat) : FILE :=
  text_file (concat (replicate n sample_group)).



(** The first two lines of an entry and nothing else. *)
Definition two_lines : FILE := text_file [ "Doe, J."; "2000" ]%string.

(** Two groups, with text on the line that separates them. *)
Definition marked_group : FILE :=
  text_file (<[7%nat := "-- not blank --"%string]> sample_group ++ sample_group).

(** A group whose author is in lower case and whose title has markup. *)
Definition lower_case_group : list string :=
  [ "bob smith"; "2020"; "A <b>bold</b> title & more"; "An advisor";
    "A university"; "PhD"; ""; "" ]%string.

(** Three entries in the order of the year page. *)
Definition year_sample : list thesis := [jones20; smith20; smith19].

(** ** Lines as [fgets] returns them *)

(** No newline in the string. *)
Fixpoint newline_free (s : string) : bool :=
  match s with
  | EmptyString => true
  | String c r => negb (Ascii.eqb c "010"%char) && newline_free r
  end.

(** What [fgets] may return: some bytes with no newline, and a newline
    after them or not. *)
Definition line_shape (l : string) : Prop :=
  exists body, newline_free body = true /\ (l = body \/ l = body +:+ Fmt.nl).

(** A line of [n] letters. *)
Fixpoint filler (n : nat) : string :=
  match n with
  | O => EmptyString
  | S n' => String "x"%char (filler n')
  end.

(** A file that ends after its first line. *)
Definition one_line : FILE := text_file [ "Doe, J." ]%string.

(** The lines of a file: the bytes from one newline to the next, without the
    newline.  What follows the last newline is a line when it has a byte. *)
Fixpoint file_lines (fp : FILE) : list string :=
  match fp with
  | EmptyString => []
  | String c rest =>
      if Ascii.eqb c "010"%char then EmptyString :: file_lines rest
      else
        match file_lines rest with
        | [] => [String c EmptyString]
        | l :: ls => String c l :: ls
        end
  end.

(** A file [fgets] reads a line at a time: every line fits the buffer with
    its newline and the NUL, 510 bytes at most. *)
Definition short_lines (fp : FILE) : Prop :=
  Forall (fun l => (String.length l + 1 < STRLEN)%nat) (file_lines fp).

(** ** What a struct may hold *)

(** A member that holds what [strcpy] may put in it: a string with no CR, LF
    or NUL that fits the [STRLEN] bytes with its terminator. *)
Definition fits (s : string) : Prop :=
  plain s = true /\ (String.length s < STRLEN)%nat.

(** A struct all of whose members are so. *)
Definition well_stored (e : thesis) : Prop :=
  fits (author e) /\ fits (year e) /\ fits (title e) /\ fits (advisor e) /\
  fits (affiliation e) /\ fits (degree e) /\ fits (url e).

(** The entries [main] of parse_theses_year.c goes on with: the first [num]
    structs of the array [parse_text] returns. *)
Definition parsed_year (indet : thesis) (lines : list string) : list thesis :=
  let r := parse_lines_year indet lines 0 0 None in
  take r.2 (default [] r.1).

(** [entry[0].year] after [parse_text] of parse_theses_year.c read the
    lines of a file too short for an entry: the second line, or what the
    memory held when there is none. *)
Definition first_year (indet : thesis) (lines : list string) : string :=
  match lines with
  | _ :: y :: _ => Libc.trim_line y
  | _ => year indet
  end.

(** ** [parse_text] with its stores checked *)

(** [strcpy (entry[cnt].member, line)] with its bounds written out: [None]
    when [entry[cnt]] is outside the array or when [line] and its NUL do
    not fit the [STRLEN] bytes of the member. *)
Definition store (set : string -> thesis -> thesis) (line : string)
    (cnt : nat) (entry : list thesis) : option (list thesis) :=
  if decide ((cnt < length entry)%nat /\ (String.length line < STRLEN)%nat)
  then Some (alter (set line) cnt entry)
  else None.

(** The loop of [parse_text] of parse_theses.c once more, every store
    checked: [None] when a line does not fit [line[STRLEN]] or a [strcpy]
    leaves the array. *)
Fixpoint parse_lines_alpha_checked (lines : list string) (i cnt : nat)
    (entry : list thesis) : option (Z * list thesis * list call) :=
  match lines with
  | [] => Some (Z.of_nat cnt, entry, [])
  | line :: lines' =>
      if decide (String.length line < STRLEN)%nat then
        let line := Libc.trim_line line in
        match
          match i with
          | 0 => (fun a => (a, cnt)) <$> store set_author line cnt entry
          | 1 => (fun a => (a, cnt)) <$> store set_year line cnt entry
          | 2 => (fun a => (a, cnt)) <$> store set_title line cnt entry
          | 3 => (fun a => (a, cnt)) <$> store set_advisor line cnt entry
          | 4 => (fun a => (a, cnt)) <$> store set_affiliation line cnt entry
          | 5 => (fun a => (a, cnt)) <$> store set_degree line cnt entry
          | 6 => (fun a => (a, S cnt)) <$> store set_url line cnt entry
          | _ => Some (entry, cnt)
          end%nat
        with
        | None => None
        | Some (entry, cnt) =>
            if (MAX_DOC <=? cnt)%nat
            then Some (-1, entry, [Fprintf Fmt.too_many []])
            else
              let i := S i in
              let i := if (i =? 8)%nat then 0%nat else i in
              parse_lines_alpha_checked lines' i cnt entry
        end
      else None
  end.

(** The loop of [parse_text] of parse_theses_year.c, every store checked:
    [None] also when a [strcpy] goes through the NULL pointer. *)
Fixpoint parse_lines_year_checked (indet : thesis) (lines : list string)
    (i cnt : nat) (entry : option (list thesis))
    : option (option (list thesis) * nat) :=
  match lines with
  | [] => Some (entry, cnt)
  | line :: lines' =>
      if decide (String.length line < STRLEN)%nat then
        let line := Libc.trim_line line in
        match
          match i with
          | 0 => (fun a => (Some a, cnt)) <$>
                 (grow indet entry cnt ≫= store set_author line cnt)
          | 1 => (fun a => (Some a, cnt)) <$> (entry ≫= store set_year line cnt)
          | 2 => (fun a => (Some a, cnt)) <$> (entry ≫= store set_title line cnt)
          | 3 => (fun a => (Some a, cnt)) <$> (entry ≫= store set_advisor line cnt)
          | 4 => (fun a => (Some a, cnt)) <$>
                 (entry ≫= store set_affiliation line cnt)
          | 5 => (fun a => (Some a, cnt)) <$> (entry ≫= store set_degree line cnt)
          | 6 => (fun a => (Some a, S cnt)) <$> (entry ≫= store set_url line cnt)
          | _ => Some (entry, cnt)
          end%nat
        with
        | None => None
        | Some (entry, cnt) =>
            let i := S i in
            let i := if (i =? 8)%nat then 0%nat else i in
            parse_lines_year_checked indet lines' i cnt entry
        end
      else None
  end.

(** ** Degrees, buckets and the page with no entry *)

(** The number of entries with the degree [d]. *)
Definition with_degree (d : string) (es : list thesis) : nat :=
  length (filter (fun e => degree e = d) es).

(** What [write_html] of parse_theses.c files an entry under:
    [toupper (entry[i].author[0])]. *)
Definition letter (cs : bool) (e : thesis) : Z :=
  Libc.toupper (Libc.int_of_char cs (first_char (author e))).

(** [alph[j][0]], the first letter of the bucket [j]. *)
Definition bucket_start (cs : bool) (j : nat) : Z :=
  Libc.int_of_char cs (first_char (alph_at j)).

(** An entry of the bucket [j]: filed from the first letter of the bucket
    up to the first letter of the next one; the last bucket has no end. *)
Definition in_bucket (cs : bool) (j : nat) (e : thesis) : Prop :=
  bucket_start cs j <= letter cs e /\
  ((j < 3)%nat -> letter cs e < bucket_start cs (S j)).

(** The call that prints the anchor of the bucket [j]. *)
Definition anchor (j : nat) : call := Fprintf Fmt.alph_anchor [Str (alph_at j)].

(** The year page with no entry on it, under the year [y]. *)
Definition empty_year_page (y : string) : list call :=
  [ Fprintf Fmt.begin_marker [];
    Fprintf Fmt.div_open [];
    Fprintf Fmt.nav_open [];
    Fprintf Fmt.jump_to_year [];
    Fprintf Fmt.year_link [Str y; Str y];
    Fprintf Fmt.nav_close [];
    Fprintf Fmt.br [];
    Fprintf Fmt.year_anchor [Str y];
    Fprintf Fmt.year_heading [Str y] ]
  ++ footer 0 0 0.

(** ** More sample entries *)

(** The two entries of the author-order test: a name in lower case and a
    name that goes before it. *)
Definition bob := Thesis "bob smith" "2020" "T" "Adv" "Aff" "MS" "".
Definition amy := Thesis "Amy Jones" "2019" "T" "Adv" "Aff" "PhD" "".

(** Four entries: two MS, one PhD and one that is neither. *)
Definition degrees_sample : list thesis :=
  [ adams; harris; set_degree "MS" zimmer; set_degree "Other" jones20 ].

(** An entry with no author and one whose author starts with a digit. *)
Definition anonymous := Thesis "" "1999" "T" "Adv" "Aff" "MS" "".
Definition three_m := Thesis "3M Research" "2004" "T" "Adv" "Aff" "PhD" "".



(** * Proofs *)

Arguments MAX_DOC : simpl never.

Ltac div_lia := zify; Z.to_euclidean_division_equations; lia.

(** ** Lines in groups of eight *)

(** Induction over a file one group at a time: the files of fewer than
    eight lines, then a group of eight in front of a file. *)
Lemma groups_ind {A} (P : list A -> Prop) :
  (forall l, (length l < 8)%nat -> P l) ->
  (forall a y t ad af d u sep rest, P rest ->
     P (a :: y :: t :: ad :: af :: d :: u :: sep :: rest)) ->
  forall l, P l.
Proof.
  intros Hshort Hgroup l.
  remember (length l) as n eqn:Hn. revert l Hn.
  induction n as [n IH] using lt_wf_ind. intros l Hn.
  destruct (decide (length l < 8)%nat) as [Hlt|Hge]; [by apply Hshort|].
  do 8 (destruct l as [|? l]; [simpl in *; lia|]).
  apply Hgroup. eapply IH; [|reflexivity]. simpl in *. lia.
Qed.

Lemma records_length lines :
  length (records lines) = ((length lines + 1) / 8)%nat.
Proof.
  induction lines as [l Hl|a y t ad af d u sep rest IH] using groups_ind.
  - do 8 (try destruct l as [|? l]); simpl in Hl; try lia; reflexivity.
  - cbn [records length]. rewrite IH. div_lia.
Qed.

(** The structs a file touches are its entries, then at most one more. *)
Lemma layout_records indet lines :
  exists tl, layout indet lines = records lines ++ tl /\ (length tl <= 1)%nat.
Proof.
  induction lines as [l Hl|a y t ad af d u sep rest IH] using groups_ind.
  - do 8 (try destruct l as [|? l]); simpl in Hl; try lia; clear Hl;
      cbn [layout records app]; eauto using app_nil_r.
    all: try (eexists [_]; split; [reflexivity|simpl; lia]).
    all: exists []; split; [reflexivity|simpl; lia].
  - destruct IH as (tl & Heq & Htl). exists tl. split; [|done].
    cbn [layout records]. by rewrite Heq.
Qed.

Lemma layout_take_records indet lines :
  take (length (records lines)) (layout indet lines) = records lines.
Proof.
  destruct (layout_records indet lines) as (tl & -> & _).
  apply take_app_length.
Qed.

Lemma layout_length indet lines :
  (length (records lines) <= length (layout indet lines)
   <= S (length (records lines)))%nat.
Proof.
  destruct (layout_records indet lines) as (tl & -> & ?).
  rewrite length_app. lia.
Qed.

(** From the second line on, the first struct has its [year]. *)
Lemma layout_first_year indet a y rest :
  exists e0 tl, layout indet (a :: y :: rest) = e0 :: tl /\
                year e0 = Libc.trim_line y.
Proof.
  do 6 (try destruct rest as [|? rest]); cbn [layout]; eauto.
Qed.

(** ** [parse_text] of parse_theses_year.c *)

Lemma grow_spec indet entry cnt :
  length (default [] entry) = cnt ->
  grow indet entry cnt = Some (default [] entry ++ [indet]).
Proof.
  intros <-. destruct entry as [arr|]; simpl; [|done].
  by rewrite resize_ge, Nat.sub_succ_l, Nat.sub_diag by lia.
Qed.

Lemma alter_mid {A} (f : A -> A) pre x post :
  alter f (length pre) (pre ++ x :: post) = pre ++ f x :: post.
Proof. by rewrite <-(Nat.add_0_r (length pre)), alter_app_r. Qed.

(** Started on a new group with [cnt] structs in the array, the loop appends
    the structs the lines touch and counts the entries among them. *)
Lemma parse_lines_year_layout indet lines : forall cnt entry,
  length (default [] entry) = cnt ->
  parse_lines_year indet lines 0 cnt entry =
  (match lines with
   | [] => entry
   | _ => Some (default [] entry ++ layout indet lines)
   end,
   (cnt + length (records lines))%nat).
Proof.
  induction lines as [l Hl|a y t ad af d u sep rest IH] using groups_ind;
    intros cnt entry Hcnt.
  - do 8 (try destruct l as [|? l]); simpl in Hl; try lia; clear Hl;
      cbn -[grow]; rewrite ?grow_spec by done; cbn; subst cnt;
      rewrite ?alter_mid; f_equal; lia.
  - cbn -[grow layout records]. rewrite grow_spec by done.
    cbn -[layout records]. subst cnt. rewrite !alter_mid.
    rewrite IH by (simpl; rewrite length_app; simpl; lia).
    cbn [layout records]. f_equal; [|simpl; lia].
    destruct rest; simpl; by rewrite <-?app_assoc.
Qed.

Lemma parse_text_year_spec indet fp :
  parse_text_year indet fp =
  (match read_lines fp with
   | [] => None
   | _ => Some (layout indet (read_lines fp))
   end,
   length (records (read_lines fp))).
Proof.
  unfold parse_text_year. by rewrite parse_lines_year_layout.
Qed.

(** ** [parse_text] of parse_theses.c *)

(** With room left in the array, the loop fills it like the other program
    as long as the entries stay below [MAX_DOC], and gives up with -1 as
    soon as they reach it. *)
Lemma parse_lines_alpha_layout indet lines : forall cnt done k,
  length done = cnt -> (cnt + S k)%nat = MAX_DOC ->
  let r := parse_lines_alpha lines 0 cnt (done ++ replicate (S k) indet) in
  ((cnt + length (records lines) < MAX_DOC)%nat ->
     r = (Z.of_nat (cnt + length (records lines)),
          done ++ layout indet lines
               ++ replicate (S k - length (layout indet lines)) indet, [])) /\
  ((MAX_DOC <= cnt + length (records lines))%nat ->
     r = (-1, r.1.2, [Fprintf Fmt.too_many []])).
Proof.
  induction lines as [l Hl|a y t ad af d u sep rest IH] using groups_ind;
    intros cnt done k Hcnt Hk.
  - assert (Hfull : (MAX_DOC <=? cnt)%nat = false) by (apply Nat.leb_gt; lia).
    do 8 (try destruct l as [|? l]); simpl in Hl; try lia; clear Hl;
      cbn -[replicate]; rewrite ?Hfull; cbn -[replicate].
    all: try (split; [intros _|intros; lia]; subst cnt; cbn [replicate];
              rewrite ?alter_mid, ?Nat.add_0_r, ?Nat.sub_0_r; done).
    destruct (Nat.leb_spec MAX_DOC (S cnt)); (split; intros; try lia).
    + done.
    + subst cnt. cbn [replicate]. rewrite !alter_mid. cbn.
      rewrite Nat.sub_0_r. repeat f_equal. lia.
  - assert (Hfull : (MAX_DOC <=? cnt)%nat = false) by (apply Nat.leb_gt; lia).
    cbn -[replicate layout records]. rewrite ?Hfull.
    cbn -[replicate layout records].
    destruct (Nat.leb_spec MAX_DOC (S cnt)) as [Hge|Hlt].
    + cbn [records length]. split; [lia|done].
    + destruct k as [|k]; [lia|].
      subst cnt. cbn [replicate]. rewrite !alter_mid.
      cbn -[replicate layout records].
      specialize (IH (S (length done)) (done ++ [record_of a y t ad af d u]) k).
      rewrite length_app, <-app_assoc in IH.
      cbn -[replicate layout records MAX_DOC] in IH.
      destruct IH as [IH1 IH2]; [lia|lia|].
      cbn [records layout length].
      split; intros Hn.
      * etrans; [apply IH1; lia|]. rewrite <-app_assoc. cbn [app Nat.sub].
        do 2 f_equal. lia.
      * apply IH2. lia.
Qed.

(** ** Bytes and [strcmp] *)

Module LibcFacts.
Import Libc.

Lemma code_range c : 0 <= code c < 256.
Proof. unfold code. pose proof (N_ascii_bounded c). lia. Qed.

Lemma code_inj c1 c2 : code c1 = code c2 -> c1 = c2.
Proof.
  unfold code. intros H. apply N2Z.inj in H.
  rewrite <-(ascii_N_embedding c1), <-(ascii_N_embedding c2). by rewrite H.
Qed.

Lemma code_nul c : code c = 0 -> c = "000"%char.
Proof. intros H. by apply code_inj. Qed.

Lemma is_cstring_cons c r :
  is_cstring (String c r) = true <-> c <> "000"%char /\ is_cstring r = true.
Proof.
  simpl. rewrite andb_true_iff, negb_true_iff.
  destruct (Ascii.eqb_spec c "000"%char); intuition congruence.
Qed.

Lemma strcmp_refl a : strcmp a a = 0.
Proof. induction a as [|c r IH]; simpl; [done|]. by rewrite Ascii.eqb_refl. Qed.

Lemma strcmp_antisym a b : strcmp b a = - strcmp a b.
Proof.
  revert b. induction a as [|c1 r1 IH]; intros [|c2 r2]; simpl; try lia.
  rewrite (Ascii.eqb_sym c2 c1). destruct (Ascii.eqb c1 c2); [apply IH|lia].
Qed.

(** On C strings, [strcmp] is 0 for equal strings only. *)
Lemma strcmp_eq a b :
  is_cstring a = true -> is_cstring b = true -> strcmp a b = 0 -> a = b.
Proof.
  revert b. induction a as [|c1 r1 IH]; intros [|c2 r2]; try done.
  - rewrite is_cstring_cons. intros _ [Hc _]; simpl. intros H.
    destruct Hc. apply code_nul. lia.
  - rewrite is_cstring_cons. intros [Hc _] _; simpl. intros H.
    destruct Hc. apply code_nul. lia.
  - rewrite !is_cstring_cons. intros [_ H1] [_ H2]. simpl.
    destruct (Ascii.eqb_spec c1 c2) as [->|Hne].
    + intros H. f_equal. by apply IH.
    + intros H. destruct Hne. apply code_inj. lia.
Qed.

Lemma strcmp_trans a b c :
  is_cstring a = true -> is_cstring b = true -> is_cstring c = true ->
  strcmp a b <= 0 -> strcmp b c <= 0 -> strcmp a c <= 0.
Proof.
  revert b c. induction a as [|c1 r1 IH]; intros [|c2 r2] [|c3 r3];
    rewrite ?is_cstring_cons; simpl; intros Ha Hb Hc; try lia.
  - pose proof (code_range c3). lia.
  - pose proof (code_range c1). intros Hle.
    assert (c1 = "000"%char) by (apply code_nul; lia). tauto.
  - pose proof (code_range c2). intros _ Hle.
    assert (c2 = "000"%char) by (apply code_nul; lia). tauto.
  - pose proof (code_range c1). pose proof (code_range c2).
    pose proof (code_range c3).
    destruct (Ascii.eqb_spec c1 c2) as [->|H12],
             (Ascii.eqb_spec c2 c3) as [->|H23]; rewrite ?Ascii.eqb_refl.
    + apply IH; tauto.
    + destruct (Ascii.eqb_spec c2 c3); [done|]. lia.
    + destruct (Ascii.eqb_spec c1 c3); [done|]. lia.
    + intros. destruct (Ascii.eqb_spec c1 c3) as [->|H13]; [|lia].
      destruct H12. apply code_inj. lia.
Qed.

(** The sign of [strcmp] is the order of the two strings byte by byte, a
    proper prefix first: the order [String.compare] decides. *)
Lemma strcmp_compare a b :
  is_cstring a = true -> is_cstring b = true ->
  (strcmp a b ?= 0) = String.compare a b.
Proof.
  revert b. induction a as [|c1 r1 IH]; intros [|c2 r2];
    rewrite ?is_cstring_cons; simpl; intros Ha Hb; try done.
  - pose proof (code_range c2).
    assert (code c2 <> 0) by (intros ?%code_nul; tauto).
    apply Z.compare_lt_iff. lia.
  - pose proof (code_range c1).
    assert (code c1 <> 0) by (intros ?%code_nul; tauto).
    apply Z.compare_gt_iff. lia.
  - unfold Ascii.compare. destruct (Ascii.eqb_spec c1 c2) as [->|Hne].
    + rewrite N.compare_refl. apply IH; tauto.
    + assert (code c1 <> code c2) by (intros ?%code_inj; done).
      unfold code in *.
      destruct (N.compare_spec (N_of_ascii c1) (N_of_ascii c2)) as [Heq|Hlt|Hgt].
      * lia.
      * apply Z.compare_lt_iff. lia.
      * apply Z.compare_gt_iff. lia.
Qed.

(** [toupper] through a [char]: the signedness of [char] does not show. *)
Lemma toupper_char cs c :
  char_of_int (toupper (int_of_char cs c)) = ascii_upper c.
Proof. destruct c as [[] [] [] [] [] [] [] []], cs; reflexivity. Qed.

Lemma ascii_upper_nul c : c <> "000"%char -> ascii_upper c <> "000"%char.
Proof. destruct c as [[] [] [] [] [] [] [] []]; done. Qed.

Lemma trim_line_cstring l : is_cstring (trim_line l) = true.
Proof.
  induction l as [|c r IH]; simpl; [done|].
  unfold is_line_end. destruct (Ascii.eqb_spec c "000"%char) as [->|Hne]; [done|].
  destruct (_ || _ || _); [done|]. simpl.
  destruct (Ascii.eqb_spec c "000"%char); [done|]. done.
Qed.

(** A line read with its newline is stored without it, and otherwise as it
    is. *)
Lemma trim_line_plain s : plain s = true -> trim_line (s +:+ Fmt.nl) = s.
Proof.
  induction s as [|c r IH]; simpl; [done|].
  destruct (is_line_end c); [done|]. simpl. intros H. by rewrite IH.
Qed.

End LibcFacts.

Lemma upper_first_normalized cs s : upper_first cs s = normalized s.
Proof. destruct s as [|c r]; simpl; [done|]. by rewrite LibcFacts.toupper_char. Qed.

Lemma normalized_cstring s : is_cstring s = true -> is_cstring (normalized s) = true.
Proof.
  destruct s as [|c r]; [done|]. cbn [normalized].
  rewrite !LibcFacts.is_cstring_cons. intros [Hc Hr].
  split; [by apply LibcFacts.ascii_upper_nul|done].
Qed.

Lemma record_of_cstrings a y t ad af d u : cstrings (record_of a y t ad af d u) = true.
Proof.
  unfold cstrings, record_of. cbn [author year title advisor affiliation degree url].
  by rewrite !LibcFacts.trim_line_cstring.
Qed.

(** Every entry read from a file is made of C strings. *)
Lemma records_cstrings lines : Forall (fun e => cstrings e = true) (records lines).
Proof.
  induction lines as [l Hl|a y t ad af d u sep rest IH] using groups_ind.
  - do 8 (try destruct l as [|? l]); simpl in Hl; try lia; cbn [records];
      repeat constructor. apply record_of_cstrings.
  - cbn [records]. constructor; [apply record_of_cstrings|done].
Qed.

(** ** Text files *)

Arguments STRLEN : simpl never.

Lemma fgets_chars_line n l rest :
  plain l = true -> (String.length l < n)%nat ->
  fgets_chars n (l +:+ Fmt.nl +:+ rest) = (l +:+ Fmt.nl, rest).
Proof.
  revert n. induction l as [|c r IH]; intros n Hp Hn.
  - destruct n; [simpl in Hn; lia|]. reflexivity.
  - destruct n; [simpl in Hn; lia|]. simpl in Hp, Hn.
    apply andb_true_iff in Hp as [Hc Hp].
    change (String c r +:+ Fmt.nl +:+ rest) with (String c (r +:+ Fmt.nl +:+ rest)).
    change (String c r +:+ Fmt.nl) with (String c (r +:+ Fmt.nl)).
    cbn [fgets_chars]. unfold Libc.is_line_end in Hc.
    destruct (Ascii.eqb c "010"); [done|].
    rewrite IH by (done || lia). done.
Qed.

Lemma fgets_line l rest :
  plain l = true -> (String.length l + 1 < STRLEN)%nat ->
  fgets STRLEN (l +:+ Fmt.nl +:+ rest) = Some (l +:+ Fmt.nl, rest).
Proof.
  intros Hp Hn. unfold fgets.
  rewrite <-(fgets_chars_line (STRLEN - 1) l rest) by (done || lia).
  by destruct l.
Qed.

Lemma string_length_app a b : String.length (a +:+ b) = (String.length a + String.length b)%nat.
Proof.
  induction a as [|c a IH]; [done|].
  change (String c a +:+ b) with (String c (a +:+ b)). simpl. by rewrite IH.
Qed.

Lemma lines_from_text ls :
  Forall (fun l => plain l = true /\ (String.length l + 1 < STRLEN)%nat) ls ->
  forall fuel, (String.length (text_file ls) <= fuel)%nat ->
  lines_from fuel (text_file ls) = map (fun l => l +:+ Fmt.nl) ls.
Proof.
  induction 1 as [|l ls [Hp Hn] _ IH]; intros fuel Hfuel.
  - by destruct fuel.
  - cbn [text_file] in *. rewrite !string_length_app in Hfuel. simpl in Hfuel.
    destruct fuel as [|fuel]; [lia|]. cbn [lines_from].
    rewrite fgets_line by done. cbn [map]. f_equal. apply IH. lia.
Qed.

Lemma read_lines_text ls :
  Forall (fun l => plain l = true /\ (String.length l + 1 < STRLEN)%nat) ls ->
  read_lines (text_file ls) = map (fun l => l +:+ Fmt.nl) ls.
Proof. intros H. by apply lines_from_text. Qed.

(** [fgets] hands out the front of the file and keeps the rest: nothing is
    lost, and the rest is shorter. *)
Lemma fgets_chars_split n fp line rest :
  fgets_chars n fp = (line, rest) -> fp = line +:+ rest.
Proof.
  revert fp line rest. induction n as [|n IH]; intros fp line rest.
  - destruct fp; by intros [= <- <-].
  - destruct fp as [|c fp]; [by intros [= <- <-]|]. cbn [fgets_chars].
    destruct (Ascii.eqb c "010"); [by intros [= <- <-]|].
    destruct (fgets_chars n fp) as [l r] eqn:E. intros [= <- <-].
    by rewrite (IH _ _ _ E).
Qed.

Lemma fgets_chars_shorter n c fp line rest :
  fgets_chars (S n) (String c fp) = (line, rest) ->
  (String.length rest <= String.length fp)%nat.
Proof.
  intros H. cbn [fgets_chars] in H. destruct (Ascii.eqb c "010").
  - apply (f_equal snd) in H. cbn [snd] in H. by subst rest.
  - destruct (fgets_chars n fp) as [l r] eqn:E.
    apply fgets_chars_split in E. apply (f_equal snd) in H. cbn [snd] in H.
    subst. rewrite string_length_app. lia.
Qed.

Lemma fgets_split fp line rest :
  fgets STRLEN fp = Some (line, rest) ->
  fp = line +:+ rest /\ (String.length rest < String.length fp)%nat.
Proof.
  destruct fp as [|c fp]; [done|]. unfold fgets. intros H.
  apply (inj Some) in H. split; [by apply fgets_chars_split in H|].
  assert (STRLEN - 1 = S (STRLEN - 2))%nat as Hn by reflexivity.
  rewrite Hn in H. apply fgets_chars_shorter in H. simpl. lia.
Qed.

(** The length of the file is fuel enough: more fuel reads the same
    lines. *)
Lemma lines_from_enough fuel : forall fp,
  (String.length fp <= fuel)%nat -> lines_from fuel fp = read_lines fp.
Proof.
  unfold read_lines.
  induction fuel as [fuel IH] using lt_wf_ind. intros fp Hfuel.
  destruct fp as [|c fp]; [by destruct fuel|].
  destruct fuel as [|fuel]; [simpl in Hfuel; lia|].
  cbn [String.length lines_from].
  destruct (fgets STRLEN (String c fp)) as [[line rest]|] eqn:E; [|done].
  apply fgets_split in E as [_ Hlt]. simpl in Hlt, Hfuel. f_equal.
  rewrite (IH fuel) by lia. symmetry. apply IH; lia.
Qed.

(** The lines read are the file, cut after its newlines and after every
    [STRLEN - 1] bytes without one. *)
Lemma read_lines_concat fp : foldr String.append EmptyString (read_lines fp) = fp.
Proof.
  remember (String.length fp) as n eqn:Hn. revert fp Hn.
  induction n as [n IH] using lt_wf_ind. intros fp ->.
  destruct fp as [|c fp]; [done|]. unfold read_lines.
  cbn [String.length lines_from].
  destruct (fgets STRLEN (String c fp)) as [[line rest]|] eqn:E; [|done].
  apply fgets_split in E as [Heq Hlt]. simpl in Hlt.
  rewrite lines_from_enough by lia. cbn [foldr].
  rewrite (IH (String.length rest)); [by rewrite Heq|simpl; lia|done].
Qed.

Lemma file_lines_nil fp : file_lines fp = [] <-> fp = EmptyString.
Proof.
  split; [|by intros ->]. destruct fp as [|c r]; [done|]. cbn [file_lines].
  destruct (Ascii.eqb c "010"); [done|]. by destruct (file_lines r).
Qed.

Lemma trim_line_cons_eq c a b :
  Libc.trim_line a = Libc.trim_line b ->
  Libc.trim_line (String c a) = Libc.trim_line (String c b).
Proof. intros H. cbn [Libc.trim_line]. by rewrite H. Qed.

(** [fgets] on a file whose first line fits: it returns that line, with its
    newline when it has one, and leaves the other lines. *)
Lemma fgets_chars_first_line fp : forall n l ls,
  file_lines fp = l :: ls -> (String.length l < n)%nat ->
  exists line rest,
    fgets_chars n fp = (line, rest) /\
    Libc.trim_line line = Libc.trim_line l /\
    file_lines rest = ls.
Proof.
  induction fp as [|c r IH]; intros n l ls Hfl Hn; [done|].
  destruct n as [|n]; [lia|]. cbn [file_lines] in Hfl. cbn [fgets_chars].
  destruct (Ascii.eqb_spec c "010"%char) as [->|Hc].
  - injection Hfl as <- <-. by exists Fmt.nl, r.
  - destruct (file_lines r) as [|l' ls'] eqn:Hr.
    + injection Hfl as <- <-. apply file_lines_nil in Hr. subst r.
      exists (String c EmptyString), EmptyString. by destruct n.
    + injection Hfl as <- <-. simpl in Hn.
      destruct (IH n l' ls' eq_refl ltac:(lia)) as (line & rest & -> & Htrim & Hrest).
      exists (String c line), rest. split; [done|]. split; [|done].
      by apply trim_line_cons_eq.
Qed.

Lemma read_lines_cons fp line rest :
  fgets STRLEN fp = Some (line, rest) -> read_lines fp = line :: read_lines rest.
Proof.
  intros H. pose proof (fgets_split _ _ _ H) as [_ Hlt].
  destruct fp as [|c fp]; [done|]. unfold read_lines at 1.
  cbn [String.length lines_from]. rewrite H. f_equal.
  apply lines_from_enough. simpl in Hlt. lia.
Qed.

(** On a file whose lines fit the buffer, the loop sees the lines of the
    file: as many reads as lines, and trimmed the same. *)
Lemma reads_are_lines fp :
  short_lines fp ->
  map Libc.trim_line (read_lines fp) = map Libc.trim_line (file_lines fp).
Proof.
  unfold short_lines.
  remember (String.length fp) as n eqn:Hn. revert fp Hn.
  induction n as [n IH] using lt_wf_ind. intros fp -> Hs.
  destruct (file_lines fp) as [|l ls] eqn:Hfl.
  { apply file_lines_nil in Hfl. by subst fp. }
  apply Forall_cons in Hs as [Hl Hs].
  destruct (fgets_chars_first_line fp (STRLEN - 1) l ls Hfl ltac:(lia))
    as (line & rest & Hget & Htrim & Hrest).
  assert (Hf : fgets STRLEN fp = Some (line, rest)).
  { unfold fgets. destruct fp; [done|]. by rewrite Hget. }
  rewrite (read_lines_cons _ _ _ Hf). cbn [map]. rewrite Htrim. f_equal.
  apply fgets_split in Hf as [_ Hlt].
  rewrite <-Hrest. apply (IH (String.length rest)); [done|done|by rewrite Hrest].
Qed.

Lemma reads_count fp : short_lines fp -> length (read_lines fp) = length (file_lines fp).
Proof.
  intros H. apply reads_are_lines in H. apply (f_equal length) in H.
  by rewrite !length_map in H.
Qed.

Lemma trim_line_idem l : Libc.trim_line (Libc.trim_line l) = Libc.trim_line l.
Proof.
  induction l as [|c l IH]; [done|]. cbn [Libc.trim_line].
  destruct (Libc.is_line_end c) eqn:E; [done|]. cbn [Libc.trim_line]. by rewrite E, IH.
Qed.

Lemma records_trimmed lines : records (map Libc.trim_line lines) = records lines.
Proof.
  induction lines as [l Hl|a y t ad af d u sep rest IH] using groups_ind.
  - do 8 (try destruct l as [|? l]); simpl in Hl; try lia; try done.
    all: cbn [map records]; unfold record_of; by rewrite !trim_line_idem.
  - cbn [map records]. unfold record_of. by rewrite IH, !trim_line_idem.
Qed.

Lemma layout_trimmed indet lines :
  layout indet (map Libc.trim_line lines) = layout indet lines.
Proof.
  induction lines as [l Hl|a y t ad af d u sep rest IH] using groups_ind.
  - do 8 (try destruct l as [|? l]); simpl in Hl; try lia; try done.
    all: cbn [map layout fill assign]; unfold record_of; by rewrite !trim_line_idem.
  - cbn [map layout]. unfold record_of. by rewrite IH, !trim_line_idem.
Qed.

Lemma records_of_lines fp :
  short_lines fp -> records (read_lines fp) = records (file_lines fp).
Proof.
  intros H. by rewrite <-records_trimmed, reads_are_lines, records_trimmed.
Qed.

Lemma layout_of_lines indet fp :
  short_lines fp -> layout indet (read_lines fp) = layout indet (file_lines fp).
Proof.
  intros H. by rewrite <-layout_trimmed, reads_are_lines, layout_trimmed.
Qed.

(** ** What [write_html] prints *)

Lemma select_cons fs f a out :
  select fs (Fprintf f a :: out) =
  if bool_decide (f ∈ fs) then Fprintf f a :: select fs out else select fs out.
Proof.
  unfold select. rewrite filter_cons. cbn [fmt].
  destruct (decide (f ∈ fs)) as [H|H].
  - by rewrite bool_decide_eq_true_2.
  - by rewrite bool_decide_eq_false_2.
Qed.

Lemma select_nil fs : select fs [] = [].
Proof. done. Qed.

Lemma select_app fs l1 l2 : select fs (l1 ++ l2) = select fs l1 ++ select fs l2.
Proof. apply filter_app. Qed.

Ltac decide_fmt :=
  repeat match goal with
  | |- context [bool_decide (?f ∈ ?fs)] =>
      let b := eval vm_compute in (bool_decide (f ∈ fs)) in
      change (bool_decide (f ∈ fs)) with b; cbv iota
  end.

Ltac select_calls :=
  repeat (rewrite ?select_app, ?select_cons, ?select_nil; decide_fmt).

Lemma select_table e : select table_fmts (table e) = table e.
Proof.
  unfold table, degree_row. destruct (Ascii.eqb _ _); cbn [app]; select_calls; done.
Qed.

Lemma for_each_select {S} fs (body : thesis -> S -> list call * S) g :
  (forall e st, select fs (body e st).1 = g e) ->
  forall es st, select fs (for_each body es st).1 = flat_map g es.
Proof.
  intros Hbody. induction es as [|e es IH]; intros st; [done|].
  cbn [for_each flat_map]. specialize (Hbody e st).
  destruct (body e st) as [cs st']. specialize (IH st').
  destruct (for_each body es st') as [cs' st'']. cbn [fst] in *.
  by rewrite select_app, Hbody, IH.
Qed.

Lemma elems_le entry n : (n <= length entry)%nat -> elems entry n = Some (take n entry).
Proof. intros H. unfold elems. by rewrite decide_True. Qed.

Lemma alpha_body_select cs fs e st :
  bool_decide (Fmt.alph_anchor ∈ fs) = false ->
  select fs (alpha_body cs e st).1 = select fs (table e).
Proof.
  intros Hfs. unfold alpha_body. destruct st as [j counts].
  destruct (_ && _); cbn [fst app]; [|done].
  by rewrite select_cons, Hfs.
Qed.

Lemma select_open_table e :
  select [Fmt.table_open] (table e) = [Fprintf Fmt.table_open []].
Proof.
  unfold table, degree_row. destruct (Ascii.eqb _ _); cbn [app]; select_calls; done.
Qed.

Lemma write_html_alpha_some cs entry cnt :
  (cnt <= length entry)%nat ->
  exists body j ms_cnt phd_cnt,
    for_each (alpha_body cs) (take cnt entry) (0, (0, 0))%nat
      = (body, (j, (ms_cnt, phd_cnt))) /\
    write_html_alpha cs entry cnt
      = Some (alpha_header ++ body ++ footer cnt ms_cnt phd_cnt).
Proof.
  intros Hle. unfold write_html_alpha. rewrite elems_le by done.
  destruct (for_each _ _ _) as [body [j [ms_cnt phd_cnt]]]. eauto 10.
Qed.

Lemma flat_map_const_length {A B} (x : list B) (l : list A) :
  length (flat_map (fun _ => x) l) = (length l * length x)%nat.
Proof. induction l as [|a l IH]; simpl; [done|]. rewrite length_app, IH. lia. Qed.

Lemma write_html_alpha_tables cs entry cnt :
  (cnt <= length entry)%nat ->
  exists out, write_html_alpha cs entry cnt = Some out /\
    select table_fmts out = flat_map table (take cnt entry) /\
    tables out = cnt.
Proof.
  intros Hle.
  destruct (write_html_alpha_some cs entry cnt Hle) as (body & j & ms & phd & Hb & ->).
  eexists; split; [done|]. split.
  - rewrite !select_app.
    replace body with (for_each (alpha_body cs) (take cnt entry) (0, (0, 0))%nat).1
      by (by rewrite Hb).
    rewrite (for_each_select _ _ table)
      by (intros; rewrite alpha_body_select by done; apply select_table).
    unfold footer. select_calls.
    replace (select table_fmts alpha_header) with (@nil call) by (by vm_compute).
    by rewrite app_nil_r.
  - unfold tables. rewrite !select_app.
    replace body with (for_each (alpha_body cs) (take cnt entry) (0, (0, 0))%nat).1
      by (by rewrite Hb).
    rewrite (for_each_select _ _ (fun _ => [Fprintf Fmt.table_open []]))
      by (intros; rewrite alpha_body_select by done; apply select_open_table).
    unfold footer. select_calls.
    replace (select [Fmt.table_open] alpha_header) with (@nil call) by (by vm_compute).
    rewrite app_nil_r. cbn [app]. rewrite flat_map_const_length, length_take. simpl. lia.
Qed.

Lemma year_nav_links es : forall y,
  (for_each year_nav_body es y).1 =
  map (fun x => Fprintf Fmt.year_link_next [Str x; Str x]) (changes y (map year es)).
Proof.
  induction es as [|e es IH]; intros y; [done|].
  cbn [for_each map changes]. unfold year_nav_body at 1.
  destruct (negb _).
  - specialize (IH (year e)). destruct (for_each _ es (year e)) as [cs st].
    cbn [fst] in *. by rewrite IH.
  - specialize (IH y). destruct (for_each _ es y) as [cs st].
    cbn [fst] in *. by rewrite IH.
Qed.

Lemma select_label_table fs e :
  bool_decide (Fmt.year_anchor ∈ fs) = true ->
  bool_decide (Fmt.year_heading ∈ fs) = true ->
  select fs (year_label (year e)) = year_label (year e).
Proof. intros H1 H2. unfold year_label. by rewrite !select_cons, H1, H2. Qed.

Lemma select_page_table e : select (label_fmts ++ table_fmts) (table e) = table e.
Proof.
  unfold table, degree_row. destruct (Ascii.eqb _ _); cbn [app]; select_calls; done.
Qed.

Lemma year_body_labelled es : forall y c,
  is_cstring y = true ->
  Forall (fun e => is_cstring (year e) = true) es ->
  select (label_fmts ++ table_fmts) (for_each year_body es (y, c)).1 =
  labelled (Some y) es.
Proof.
  induction es as [|e es IH]; intros y c Hy Hes; [done|].
  apply Forall_cons in Hes as [He Hes].
  cbn [for_each labelled]. unfold year_body at 1.
  destruct (Z.eqb_spec (Libc.strcmp y (year e)) 0) as [Heq|Hne]; cbn [negb].
  - apply LibcFacts.strcmp_eq in Heq; [|done..]. subst y.
    specialize (IH (year e) (count_degree e c) He Hes).
    destruct (for_each _ es _) as [cs st]. cbn [fst app] in *.
    rewrite decide_True by done.
    by rewrite !select_app, IH, select_page_table.
  - specialize (IH (year e) (count_degree e c) He Hes).
    destruct (for_each _ es _) as [cs st]. cbn [fst] in *.
    rewrite decide_False by (intros [= ->]; by rewrite LibcFacts.strcmp_refl in Hne).
    rewrite !select_app, IH, select_page_table.
    fold (year_label (year e)). by rewrite select_label_table.
Qed.

Lemma descending_le x l :
  Forall (fun s => is_cstring s = true) (x :: l) -> descending (x :: l) ->
  Forall (fun z => Libc.strcmp z x <= 0) l.
Proof.
  revert x. induction l as [|y l IH]; intros x Hc Hd; [constructor|].
  destruct Hd as [Hyx Hd].
  apply Forall_cons in Hc as [Hx Hc]. pose proof Hc as Hc'.
  apply Forall_cons in Hc' as [Hy Hl].
  constructor; [done|].
  specialize (IH y Hc Hd). 
  rewrite Forall_forall in IH, Hl |- *. intros z Hz.
  eapply LibcFacts.strcmp_trans; [..|apply IH, Hz|apply Hyx]; auto.
Qed.

Lemma changes_first_seen l : forall y seen,
  Forall (fun s => is_cstring s = true) (y :: seen ++ l) ->
  y ∈ seen -> Forall (fun s => Libc.strcmp y s <= 0) seen ->
  Forall (fun z => Libc.strcmp z y <= 0) l ->
  descending l ->
  changes y l = first_seen seen l.
Proof.
  induction l as [|x l IH]; intros y seen Hc Hy Hseen Hl Hd; [done|].
  apply Forall_cons in Hc as [Hcy Hc]. apply Forall_app in Hc as [Hcs Hcl].
  pose proof Hcl as Hcl'. apply Forall_cons in Hcl' as [Hcx Hcl'].
  apply Forall_cons in Hl as [Hxy Hl].
  assert (Hd' : descending l) by (destruct l; [done|apply Hd]).
  cbn [changes first_seen].
  destruct (Z.eqb_spec (Libc.strcmp y x) 0) as [Heq|Hne]; cbn [negb].
  - apply LibcFacts.strcmp_eq in Heq; [|done..]. subst x.
    rewrite bool_decide_eq_true_2 by done.
    apply IH; try done.
    repeat (apply Forall_cons; split; try done). by apply Forall_app.
  - assert (Hnew : x ∉ seen).
    { intros Hin. rewrite Forall_forall in Hseen. specialize (Hseen x Hin).
      rewrite (LibcFacts.strcmp_antisym y x) in Hxy. lia. }
    rewrite bool_decide_eq_false_2 by done. f_equal.
    apply IH; try done.
    + apply Forall_cons; split; [done|]. apply Forall_app. split; [|done].
      by apply Forall_cons.
    + apply list_elem_of_here.
    + apply Forall_cons. split; [by rewrite LibcFacts.strcmp_refl|].
      rewrite Forall_forall in Hseen |- *. intros s Hs.
      eapply LibcFacts.strcmp_trans; [..|apply Hxy|apply Hseen, Hs]; try done.
      rewrite Forall_forall in Hcs. auto.
    + by apply descending_le.
Qed.

(** ** The comparators *)

Lemma cstrings_fields t :
  cstrings t = true ->
  is_cstring (author t) = true /\ is_cstring (year t) = true /\
  is_cstring (title t) = true /\ is_cstring (advisor t) = true /\
  is_cstring (affiliation t) = true /\ is_cstring (degree t) = true /\
  is_cstring (url t) = true.
Proof. unfold cstrings. rewrite !andb_true_iff. tauto. Qed.

(** C5.  On entries made of C strings, the sign of [compare] of
    parse_theses_year.c is the order of the two [year] members byte by
    byte, the later year first, and for equal years the order of the two
    authors with their first character in upper case. *)
Theorem compare_year_order (cs : bool) (s1 s2 : ptr) :
  cstrings (target s1) = true -> cstrings (target s2) = true ->
  (compare_year cs s1 s2 ?= 0) =
  match String.compare (year (target s2)) (year (target s1)) with
  | Eq => String.compare (normalized (author (target s1)))
                         (normalized (author (target s2)))
  | c => c
  end.
Proof.
  intros (Ha1 & Hy1 & _)%cstrings_fields (Ha2 & Hy2 & _)%cstrings_fields.
  unfold compare_year. cbv zeta.
  rewrite <-(LibcFacts.strcmp_compare (year (target s2)) (year (target s1))) by done.
  rewrite !upper_first_normalized.
  destruct (Z.eqb_spec (Libc.strcmp (year (target s2)) (year (target s1))) 0) as [->|Hne].
  - cbn [Z.compare]. apply LibcFacts.strcmp_compare; by apply normalized_cstring.
  - destruct (Z.compare_spec (Libc.strcmp (year (target s2)) (year (target s1))) 0);
      [done|done|done].
Qed.

Lemma compare_year_order_witness :
  cstrings jones20 = true /\ cstrings smith19 = true /\
  (compare_year true (elem_ptr 0 0 jones20) (elem_ptr 0 1 smith19) ?= 0) = Lt.
Proof.
  split; [reflexivity|]. split; [reflexivity|].
  exact (compare_year_order true (elem_ptr 0 0 jones20) (elem_ptr 0 1 smith19)
           eq_refl eq_refl).
Defined.

(** C1 is not met by the code.  The entries [smith20] and [smith19] tie
    on the author; their years are 2020 and 2019, so a tie broken by year
    would put [smith19] first.  [compare] of parse_theses.c answers -1 for
    the entry at the lower address whichever of the two it is: it compares
    the addresses of the two [year] arrays.  A sort that trusts it leaves
    the two entries in the order of the file, whichever that is. *)
Theorem compare_alpha_ties_by_address (cs : bool) (base : Z) :
  Libc.strcmp (upper_first cs (author smith20)) (upper_first cs (author smith19)) = 0 /\
  Libc.strcmp (year smith20) (year smith19) > 0 /\
  compare_alpha cs (elem_ptr base 0 smith20) (elem_ptr base 1 smith19) = -1 /\
  compare_alpha cs (elem_ptr base 0 smith19) (elem_ptr base 1 smith20) = -1 /\
  insertion_qsort (compare_alpha cs) [smith20; smith19] = [smith20; smith19] /\
  insertion_qsort (compare_alpha cs) [smith19; smith20] = [smith19; smith20].
Proof.
  assert (Hlt : (base + Z.of_nat 0 * sizeof_thesis + offsetof_year
                 <? base + Z.of_nat 1 * sizeof_thesis + offsetof_year) = true).
  { apply Z.ltb_lt. unfold sizeof_thesis, STRLEN. lia. }
  split; [by destruct cs|]. split; [done|].
  split_and!; [| |by destruct cs..].
  all: unfold compare_alpha, elem_ptr; cbn [addr target]; rewrite Hlt;
    by destruct cs.
Qed.

(** ** The alphabetical page *)

Ltac decide_closed :=
  cbn [fmt];
  match goal with |- ?P => apply (bool_decide_eq_true_1 P); by vm_compute end.

Lemma select_disjoint fs gs out :
  Forall (fun c => fmt c ∈ gs) out ->
  forallb (fun g => negb (bool_decide (g ∈ fs))) gs = true ->
  select fs out = [].
Proof.
  intros Hout Hgs. rewrite forallb_forall in Hgs.
  induction Hout as [|c out Hc _ IH]; [done|].
  unfold select in *. rewrite filter_cons_False; [done|].
  intros Hin. apply list_elem_of_In, Hgs in Hc.
  by rewrite bool_decide_eq_true_2 in Hc.
Qed.

Lemma table_calls e : Forall (fun c => fmt c ∈ table_fmts) (table e).
Proof.
  unfold table, degree_row. destruct (Ascii.eqb _ _); cbn [app];
    repeat (constructor; [decide_closed|]); constructor.
Qed.

Lemma footer_calls n ms_cnt phd_cnt :
  Forall (fun c => fmt c ∈ footer_fmts) (footer n ms_cnt phd_cnt).
Proof.
  unfold footer.
  repeat (constructor; [decide_closed|]); constructor.
Qed.







(** ** The year page *)

Lemma write_html_year_some e0 arr num :
  (num <= S (length arr))%nat ->
  exists links y body y' ms_cnt phd_cnt,
    for_each year_nav_body (take num (e0 :: arr)) (year e0) = (links, y) /\
    for_each year_body (take num (e0 :: arr)) (year e0, (0, 0))%nat
      = (body, (y', (ms_cnt, phd_cnt))) /\
    write_html_year (Some (e0 :: arr)) num =
    Some ([ Fprintf Fmt.begin_marker [];
            Fprintf Fmt.div_open [];
            Fprintf Fmt.nav_open [];
            Fprintf Fmt.jump_to_year [];
            Fprintf Fmt.year_link [Str (year e0); Str (year e0)] ]
          ++ links
          ++ [ Fprintf Fmt.nav_close [];
               Fprintf Fmt.br [];
               Fprintf Fmt.year_anchor [Str (year e0)];
               Fprintf Fmt.year_heading [Str (year e0)] ]
          ++ body
          ++ footer num ms_cnt phd_cnt).
Proof.
  intros Hle. unfold write_html_year. cbn [lookup list_lookup].
  rewrite elems_le by (simpl; lia).
  destruct (for_each year_nav_body _ _) as [links y].
  destruct (for_each year_body _ _) as [body [y' [ms_cnt phd_cnt]]].
  eauto 10.
Qed.

Lemma year_nav_body_select fs e y :
  bool_decide (Fmt.year_link_next ∈ fs) = false ->
  select fs (year_nav_body e y).1 = [].
Proof.
  intros Hfs. unfold year_nav_body. destruct (negb _); cbn [fst]; [|done].
  by rewrite select_cons, Hfs.
Qed.

Lemma year_body_select fs e st :
  bool_decide (Fmt.year_anchor ∈ fs) = false ->
  bool_decide (Fmt.year_heading ∈ fs) = false ->
  select fs (year_body e st).1 = select fs (table e).
Proof.
  intros H1 H2. unfold year_body. destruct st as [y counts].
  destruct (negb _); cbn [fst app]; [|done].
  by rewrite !select_cons, H1, H2.
Qed.

Lemma flat_map_nil {A B} (l : list A) : flat_map (fun _ => @nil B) l = [].
Proof. induction l; simpl; congruence. Qed.

Lemma write_html_year_tables e0 arr num :
  (num <= S (length arr))%nat ->
  exists out, write_html_year (Some (e0 :: arr)) num = Some out /\
    select table_fmts out = flat_map table (take num (e0 :: arr)) /\
    tables out = num.
Proof.
  intros Hle.
  destruct (write_html_year_some e0 arr num Hle)
    as (links & y & body & y' & ms & phd & Hl & Hb & ->).
  apply (f_equal fst) in Hl, Hb. cbn [fst] in Hl, Hb. subst links body.
  eexists; split; [done|]. split.
  - rewrite !select_app.
    rewrite (for_each_select _ _ (fun _ => []))
      by (intros; by apply year_nav_body_select).
    rewrite (for_each_select _ _ table)
      by (intros; rewrite year_body_select by done; apply select_table).
    rewrite (select_disjoint _ _ _ (footer_calls _ _ _)) by (by vm_compute).
    rewrite flat_map_nil, !select_cons, select_nil. decide_fmt.
    by rewrite app_nil_r.
  - unfold tables. rewrite !select_app.
    rewrite (for_each_select _ _ (fun _ => []))
      by (intros; by apply year_nav_body_select).
    rewrite (for_each_select _ _ (fun _ => [Fprintf Fmt.table_open []]))
      by (intros; rewrite year_body_select by done; apply select_open_table).
    rewrite (select_disjoint _ _ _ (footer_calls _ _ _)) by (by vm_compute).
    rewrite flat_map_nil, !select_cons, select_nil. decide_fmt.
    rewrite app_nil_r. cbn [app]. rewrite flat_map_const_length, length_take.
    simpl. lia.
Qed.

(** ** The two programs, from the file to the page *)

Lemma read_lines_nil fp : read_lines fp = [] <-> fp = EmptyString.
Proof.
  split; [|by intros ->].
  destruct fp as [|c r]; [done|]. unfold read_lines. cbn [String.length lines_from].
  unfold fgets. by destruct (fgets_chars _ _).
Qed.

Lemma max_doc_pred : S (MAX_DOC - 1) = MAX_DOC.
Proof. reflexivity. Qed.

Lemma parse_text_alpha_below indet fp :
  (length (records (read_lines fp)) < MAX_DOC)%nat ->
  parse_text_alpha fp (replicate MAX_DOC indet) =
  (Z.of_nat (length (records (read_lines fp))),
   layout indet (read_lines fp)
     ++ replicate (MAX_DOC - length (layout indet (read_lines fp))) indet, []).
Proof.
  intros Hn. unfold parse_text_alpha.
  destruct (parse_lines_alpha_layout indet (read_lines fp) 0 [] (MAX_DOC - 1)
              eq_refl max_doc_pred) as [H _].
  rewrite max_doc_pred in H. apply H. simpl. lia.
Qed.

Lemma parse_text_alpha_full indet fp :
  (MAX_DOC <= length (records (read_lines fp)))%nat ->
  exists arr, parse_text_alpha fp (replicate MAX_DOC indet) =
              (-1, arr, [Fprintf Fmt.too_many []]).
Proof.
  intros Hn. unfold parse_text_alpha.
  destruct (parse_lines_alpha_layout indet (read_lines fp) 0 [] (MAX_DOC - 1)
              eq_refl max_doc_pred) as [_ H].
  rewrite max_doc_pred in H. eexists. apply H. simpl. lia.
Qed.

Lemma main_alpha_full cs indet qsort fopen argv fp :
  fopen (input_name argv) = Some fp ->
  (MAX_DOC <= length (records (read_lines fp)))%nat ->
  main_alpha cs indet qsort fopen argv =
  Some (Result (-1) [] [Fprintf Fmt.too_many []; Fprintf Fmt.parse_failed []]).
Proof.
  intros Hfp Hn. unfold main_alpha. rewrite Hfp.
  destruct (parse_text_alpha_full indet fp Hn) as [arr ->]. done.
Qed.

Lemma main_alpha_below cs indet qsort fopen argv fp :
  (forall cmp es, Permutation (qsort cmp es) es) ->
  fopen (input_name argv) = Some fp ->
  (length (records (read_lines fp)) < MAX_DOC)%nat ->
  exists out shown,
    main_alpha cs indet qsort fopen argv = Some (Result 0 out []) /\
    Permutation shown (records (read_lines fp)) /\
    select table_fmts out = flat_map table shown /\
    tables out = length (records (read_lines fp)).
Proof.
  intros Hperm Hfp Hn. unfold main_alpha. rewrite Hfp.
  rewrite parse_text_alpha_below by done.
  cbv zeta iota beta.
  destruct (Z.eqb_spec (Z.of_nat (length (records (read_lines fp)))) (-1)) as [?|_]; [lia|].
  rewrite Nat2Z.id.
  set (n := length (records (read_lines fp))).
  assert (Htake : take n (layout indet (read_lines fp)
                   ++ replicate (MAX_DOC - length (layout indet (read_lines fp))) indet)
                  = records (read_lines fp)).
  { destruct (layout_records indet (read_lines fp)) as (tl & -> & _).
    rewrite <-app_assoc. by apply take_app_length. }
  unfold qsort_array. rewrite Htake.
  pose proof (Hperm (compare_alpha cs) (records (read_lines fp))) as Hp.
  pose proof (Permutation_length Hp) as Hlen. fold n in Hlen.
  edestruct (write_html_alpha_tables cs) as (out & -> & Hsel & Htab);
    [|exists out, (qsort (compare_alpha cs) (records (read_lines fp)));
      split; [done|]; split; [done|]; split; [|done]].
  - rewrite length_app. lia.
  - by rewrite Hsel, take_app_length' by done.
Qed.

Lemma main_year_nonempty cs indet qsort fopen argv fp :
  (forall cmp es, Permutation (qsort cmp es) es) ->
  fopen (input_name argv) = Some fp ->
  fp <> EmptyString ->
  exists out shown,
    main_year cs indet qsort fopen argv = Some (Result 0 out []) /\
    Permutation shown (records (read_lines fp)) /\
    select table_fmts out = flat_map table shown /\
    tables out = length (records (read_lines fp)).
Proof.
  intros Hperm Hfp Hne. unfold main_year. rewrite Hfp, parse_text_year_spec.
  destruct (read_lines fp) as [|l ls] eqn:Hlines; [by apply read_lines_nil in Hlines|].
  rewrite <-Hlines. clear l ls Hlines. cbv zeta iota beta.
  destruct (Z.eqb_spec (Z.of_nat (length (records (read_lines fp)))) (-1)) as [?|_]; [lia|].
  set (n := length (records (read_lines fp))).
  cbn [fmap option_fmap option_map]. unfold qsort_array.
  pose proof (layout_take_records indet (read_lines fp)) as Htake. fold n in Htake.
  rewrite Htake.
  pose proof (Hperm (compare_year cs) (records (read_lines fp))) as Hp.
  pose proof (Permutation_length Hp) as Hlen. fold n in Hlen.
  destruct (layout_records indet (read_lines fp)) as (tl & Hlay & Htl).
  assert (Hdrop : drop n (layout indet (read_lines fp)) = tl).
  { rewrite Hlay. by apply drop_app_length. }
  rewrite Hdrop.
  destruct (qsort (compare_year cs) (records (read_lines fp)) ++ tl)
    as [|e0 arr] eqn:Harr.
  { apply (f_equal length) in Harr. rewrite length_app, Hlen in Harr.
    apply (f_equal length) in Hlay. rewrite length_app in Hlay. fold n in Hlay.
    assert (layout indet (read_lines fp) <> []).
    { destruct (read_lines fp) as [|a rest] eqn:E; [by apply read_lines_nil in E|].
      clear. do 7 (try destruct rest as [|? rest]); done. }
    destruct (layout indet (read_lines fp)); [done|]. simpl in *. lia. }
  assert (Hnum : (n <= S (length arr))%nat).
  { apply (f_equal length) in Harr. rewrite length_app in Harr. simpl in Harr. lia. }
  destruct (write_html_year_tables e0 arr n Hnum) as (out & -> & Hsel & Htab).
  exists out, (qsort (compare_year cs) (records (read_lines fp))).
  split; [done|]. split; [done|]. split; [|done].
  rewrite Hsel, <-Harr. by rewrite take_app_length' by done.
Qed.

(** ** The separator line *)

Lemma parse_lines_alpha_separator lines : forall i k s cnt entry,
  (i < 8)%nat -> ((i + k) mod 8 = 7)%nat ->
  parse_lines_alpha (<[k:=s]> lines) i cnt entry = parse_lines_alpha lines i cnt entry.
Proof.
  induction lines as [|l lines IH]; intros i k s cnt entry Hi Hk; [done|].
  destruct k as [|k].
  - assert (i = 7%nat) as -> by (rewrite Nat.add_0_r, Nat.mod_small in Hk; lia).
    reflexivity.
  - cbn [insert list_insert parse_lines_alpha].
    do 8 (destruct i as [|i]; [
      cbv zeta iota beta;
      match goal with |- context [(MAX_DOC <=? ?c)%nat] =>
        destruct (MAX_DOC <=? c)%nat; [done|] end;
      cbn [Nat.eqb]; apply IH; [lia|]; revert Hk; clear;
      intros; div_lia |]).
    lia.
Qed.

Lemma parse_lines_year_separator indet lines : forall i k s cnt entry,
  (i < 8)%nat -> ((i + k) mod 8 = 7)%nat ->
  parse_lines_year indet (<[k:=s]> lines) i cnt entry
  = parse_lines_year indet lines i cnt entry.
Proof.
  induction lines as [|l lines IH]; intros i k s cnt entry Hi Hk; [done|].
  destruct k as [|k].
  - assert (i = 7%nat) as -> by (rewrite Nat.add_0_r, Nat.mod_small in Hk; lia).
    reflexivity.
  - cbn [insert list_insert parse_lines_year].
    do 8 (destruct i as [|i]; [
      cbv zeta iota beta; cbn [Nat.eqb]; apply IH; [lia|]; revert Hk; clear;
      intros; div_lia |]).
    lia.
Qed.

(** C10.  The line read when the member counter is 7, the eighth of a
    group, is stored nowhere: two files whose lines differ on such a line
    only are parsed to the same result, and both programs end the same way
    on them, with the same calls on stdout and stderr. *)
Theorem separator_line_ignored (cs : bool) (indet : thesis)
    (qsort : (ptr -> ptr -> Z) -> list thesis -> list thesis)
    (argv : list string) (entry0 : list thesis) (fp fp' : FILE) (k : nat) (s : string) :
  (k mod 8 = 7)%nat ->
  read_lines fp' = <[k:=s]> (read_lines fp) ->
  parse_text_alpha fp' entry0 = parse_text_alpha fp entry0 /\
  parse_text_year indet fp' = parse_text_year indet fp /\
  main_alpha cs indet qsort (fun _ => Some fp') argv
    = main_alpha cs indet qsort (fun _ => Some fp) argv /\
  main_year cs indet qsort (fun _ => Some fp') argv
    = main_year cs indet qsort (fun _ => Some fp) argv.
Proof.
  intros Hk Hlines.
  assert (Ha : forall e, parse_text_alpha fp' e = parse_text_alpha fp e).
  { intros e. unfold parse_text_alpha. rewrite Hlines.
    apply parse_lines_alpha_separator; [lia|done]. }
  assert (Hy : parse_text_year indet fp' = parse_text_year indet fp).
  { unfold parse_text_year. rewrite Hlines.
    apply parse_lines_year_separator; [lia|done]. }
  split; [apply Ha|]. split; [apply Hy|].
  unfold main_alpha, main_year. by rewrite Ha, Hy.
Qed.

Lemma separator_line_ignored_witness :
  (7 mod 8 = 7)%nat /\
  read_lines marked_group
    = <[7%nat := ("-- not blank --" +:+ Fmt.nl)]> (read_lines (groups_file 2)) /\
  parse_text_alpha marked_group (replicate MAX_DOC junk)
    = parse_text_alpha (groups_file 2) (replicate MAX_DOC junk) /\
  parse_text_year junk marked_group = parse_text_year junk (groups_file 2) /\
  main_alpha true junk insertion_qsort (fun _ => Some marked_group) []
    = main_alpha true junk insertion_qsort (fun _ => Some (groups_file 2)) [] /\
  main_year true junk insertion_qsort (fun _ => Some marked_group) []
    = main_year true junk insertion_qsort (fun _ => Some (groups_file 2)) [].
Proof.
  split; [reflexivity|]. split; [vm_compute; reflexivity|].
  exact (separator_line_ignored true junk insertion_qsort [] (replicate MAX_DOC junk)
           (groups_file 2) marked_group 7 ("-- not blank --" +:+ Fmt.nl)
           eq_refl ltac:(vm_compute; reflexivity)).
Defined.


(** ** The capacity of the array *)

(** C4 is not met by the code.  A file of [MAX_DOC] entries, which the
    array has room for, is turned down: [parse_text] of parse_theses.c
    returns -1 when the last of them is complete, and [main] leaves with
    -1, the two messages on stderr and nothing on stdout. *)
Theorem full_array_rejected (cs : bool) (indet : thesis)
    (qsort : (ptr -> ptr -> Z) -> list thesis -> list thesis) (argv : list string) :
  length (records (read_lines (groups_file MAX_DOC))) = MAX_DOC /\
  main_alpha cs indet qsort (fun _ => Some (groups_file MAX_DOC)) argv =
  Some (Result (-1) [] [ Fprintf Fmt.too_many []; Fprintf Fmt.parse_failed [] ]).
Proof.
  assert (Hn : length (records (read_lines (groups_file MAX_DOC))) = MAX_DOC)
    by (vm_compute; reflexivity).
  split; [done|]. eapply main_alpha_full; [done|]. by rewrite Hn.
Qed.


(** ** Entries and lines *)

Lemma insert_sorted_perm cmp x l : Permutation (insert_sorted cmp x l) (x :: l).
Proof.
  induction l as [|y l IH]; simpl; [done|].
  destruct (cmp x y <=? 0); [done|].
  rewrite IH. apply perm_swap.
Qed.

Lemma insertion_qsort_perm cmp es : Permutation (insertion_qsort cmp es) es.
Proof.
  unfold insertion_qsort.
  assert (H : forall l, Permutation (foldr (insert_sorted cmp) [] l) l).
  { induction l as [|x l IH]; simpl; [done|].
    by rewrite insert_sorted_perm, IH. }
  rewrite H. unfold elem_ptr.
  assert (Hmap : forall (l : list thesis) (f : nat -> Z),
             map target (imap (fun i t => Ptr (f i) t) l) = l).
  { induction l as [|x l IH]; intros f; simpl; [done|]. f_equal. apply (IH (f ∘ S)). }
  by rewrite (Hmap es (fun i => 0 + Z.of_nat i * sizeof_thesis)).
Qed.






(** ** The first struct of the year page *)

Lemma write_html_year_ext arr1 arr2 num :
  year <$> arr1 !! 0%nat = year <$> arr2 !! 0%nat ->
  elems arr1 num = elems arr2 num ->
  write_html_year (Some arr1) num = write_html_year (Some arr2) num.
Proof.
  intros H0 Hel. unfold write_html_year. rewrite <-Hel.
  destruct (arr1 !! 0%nat) as [e1|], (arr2 !! 0%nat) as [e2|]; try done.
  injection H0 as ->. done.
Qed.

(** From the second line on, nothing the page shows was left
    indeterminate by the parser. *)
Lemma year_page_determined indet1 indet2 fp :
  (2 <= length (read_lines fp))%nat ->
  write_html_year (parse_text_year indet1 fp).1 (parse_text_year indet1 fp).2
  = write_html_year (parse_text_year indet2 fp).1 (parse_text_year indet2 fp).2.
Proof.
  intros Hlen. rewrite !parse_text_year_spec. cbn [fst snd].
  destruct (read_lines fp) as [|a [|y rest]]; [simpl in Hlen; lia..|].
  set (lines := a :: y :: rest).
  destruct (layout_first_year indet1 a y rest) as (e1 & tl1 & Hl1 & Hy1).
  destruct (layout_first_year indet2 a y rest) as (e2 & tl2 & Hl2 & Hy2).
  pose proof (layout_take_records indet1 lines) as Ht1.
  pose proof (layout_take_records indet2 lines) as Ht2.
  pose proof (layout_length indet1 lines) as Hn1.
  pose proof (layout_length indet2 lines) as Hn2.
  apply write_html_year_ext.
  - fold lines in Hl1, Hl2. rewrite Hl1, Hl2 in *. cbn [lookup list_lookup fmap option_fmap option_map].
    destruct (records lines) as [|e es]; [congruence|].
    simpl in Ht1, Ht2. congruence.
  - rewrite !elems_le by lia. by rewrite Ht1, Ht2.
Qed.

(** C9 as stated fails.  A file of two lines has no entry, yet
    [parse_text] returns an array, not NULL, and [write_html] reads the
    year stored in its first struct and runs to the end. *)
Lemma no_entry_yet_not_null :
  (parse_text_year junk two_lines).2 = 0%nat /\
  (parse_text_year junk two_lines).1 <> None /\
  write_html_year (parse_text_year junk two_lines).1
                  (parse_text_year junk two_lines).2 <> None /\
  main_year true junk insertion_qsort (fun _ => Some two_lines) [] <> None.
Proof. vm_compute. repeat split; discriminate. Qed.

Lemma layout_short indet lines :
  (1 <= length lines < 7)%nat ->
  exists e, layout indet lines = [e] /\ records lines = [] /\
            year e = first_year indet lines.
Proof.
  intros Hl. destruct lines as [|a [|y rest]]; [simpl in Hl; lia| |].
  - by exists (fill 0 [a] indet).
  - exists (fill 0 (a :: y :: rest) indet).
    do 5 (try destruct rest as [|? rest]); simpl in Hl; try lia; done.
Qed.

Lemma first_year_trimmed indet lines :
  first_year indet (map Libc.trim_line lines) = first_year indet lines.
Proof. destruct lines as [|a [|y rest]]; try done. cbn. apply trim_line_idem. Qed.

Lemma first_year_of_lines indet fp :
  short_lines fp -> first_year indet (read_lines fp) = first_year indet (file_lines fp).
Proof.
  intros H. by rewrite <-first_year_trimmed, reads_are_lines, first_year_trimmed.
Qed.

Lemma write_html_year_no_entry e :
  write_html_year (Some [e]) 0 = Some (empty_year_page (year e)).
Proof. reflexivity. Qed.

(** C9, as amended.  [write_html] of parse_theses_year.c reads
    [entry[0].year] before it looks at [num], so it fails on a NULL or empty
    array.  [parse_text] returns NULL for the empty file and for no other;
    [main] then passes NULL on.  With one entry or more the page is
    printed, and from two reads on it does not depend on what the memory
    held before.  A file of one to six lines, none of more than 510 bytes,
    has no entry either, but its array is not NULL: it has one struct, whose
    year is the second line of the file, or what the memory held when the
    file has one line, and [write_html] prints the page with no entry under
    that year. *)
Theorem year_page_reads_first_struct (cs : bool) (indet : thesis)
    (qsort : (ptr -> ptr -> Z) -> list thesis -> list thesis)
    (argv : list string) (fp : FILE) (n : nat) :
  write_html_year None n = None /\
  write_html_year (Some []) n = None /\
  parse_text_year indet EmptyString = (None, 0%nat) /\
  main_year cs indet qsort (fun _ => Some EmptyString) argv = None /\
  ((parse_text_year indet fp).1 = None <-> fp = EmptyString) /\
  ((parse_text_year indet fp).2 = 0%nat \/
   is_Some (write_html_year (parse_text_year indet fp).1
                            (parse_text_year indet fp).2)) /\
  ((2 <= length (read_lines fp))%nat ->
   forall indet',
     write_html_year (parse_text_year indet fp).1 (parse_text_year indet fp).2
     = write_html_year (parse_text_year indet' fp).1 (parse_text_year indet' fp).2) /\
  (short_lines fp -> (1 <= length (file_lines fp) <= 6)%nat ->
   (String.length (year indet) < STRLEN)%nat ->
   exists e,
     parse_text_year indet fp = (Some [e], 0%nat) /\
     year e = first_year indet (file_lines fp) /\
     write_html_year (Some [e]) 0 = Some (empty_year_page (year e))).
Proof.
  split_and!; [done..| | |intros; by apply year_page_determined|].
  all: clear n.
  - rewrite parse_text_year_spec. cbn [fst snd].
    rewrite <-read_lines_nil. by destruct (read_lines fp).
  - rewrite parse_text_year_spec. cbn [fst snd].
    destruct (read_lines fp) as [|l ls] eqn:Hlines; [by left|].
    rewrite <-Hlines. clear l ls Hlines.
    destruct (records (read_lines fp)) as [|e es] eqn:Hrec; [by left|]. right.
    destruct (layout_records indet (read_lines fp)) as (tl & Hlay & _).
    rewrite Hlay, Hrec. cbn [app].
    edestruct (write_html_year_tables e (es ++ tl) (length (e :: es)))
      as (out & -> & _); [|done].
    rewrite length_app. simpl. lia.
  - intros Hs Hlen _.
    assert (Hreads : (1 <= length (read_lines fp) < 7)%nat)
      by (rewrite reads_count by done; lia).
    destruct (layout_short indet (read_lines fp) Hreads) as (e & Hlay & Hrec & Hy).
    exists e. rewrite parse_text_year_spec, Hlay, Hrec.
    destruct (read_lines fp) as [|l ls] eqn:E; [simpl in Hreads; lia|].
    split; [done|]. split; [|done].
    by rewrite Hy, <-E, first_year_of_lines.
Qed.

Lemma year_page_reads_first_struct_witness :
  short_lines two_lines /\
  (1 <= length (file_lines two_lines) <= 6)%nat /\
  (String.length (year junk) < STRLEN)%nat /\
  exists e,
    parse_text_year junk two_lines = (Some [e], 0%nat) /\
    year e = "2000"%string /\
    write_html_year (Some [e]) 0 = Some (empty_year_page (year e)).
Proof.
  assert (Hs : short_lines two_lines) by (unfold short_lines; decide_closed).
  assert (Hl : (1 <= length (file_lines two_lines) <= 6)%nat) by (vm_compute; lia).
  assert (Hj : (String.length (year junk) < STRLEN)%nat) by (vm_compute; lia).
  split; [exact Hs|]. split; [exact Hl|]. split; [exact Hj|].
  exact (proj2 (proj2 (proj2 (proj2 (proj2 (proj2 (proj2
           (year_page_reads_first_struct true junk insertion_qsort [] two_lines 0))))))) Hs Hl Hj).
Defined.


(** ** Years on the year page *)

Lemma first_seen_spec l : forall seen,
  NoDup (first_seen seen l) /\
  forall x, x ∈ first_seen seen l <-> x ∈ l /\ x ∉ seen.
Proof.
  induction l as [|y l IH]; intros seen.
  - split; [constructor|]. intros x. cbn [first_seen].
    rewrite !elem_of_nil. tauto.
  - cbn [first_seen]. destruct (decide (y ∈ seen)) as [Hin|Hnin].
    + rewrite bool_decide_eq_true_2 by done.
      destruct (IH seen) as [Hnd Hel]. split; [done|].
      intros x. rewrite Hel, elem_of_cons. split; [tauto|].
      intros [[->|?] ?]; tauto.
    + rewrite bool_decide_eq_false_2 by done.
      destruct (IH (y :: seen)) as [Hnd Hel]. split.
      * constructor; [|done]. rewrite Hel, elem_of_cons. tauto.
      * intros x. rewrite !elem_of_cons, Hel, elem_of_cons.
        destruct (decide (x = y)) as [->|]; tauto.
Qed.

(** [distinct l] holds every value of [l] once. *)
Lemma distinct_spec l :
  NoDup (distinct l) /\ forall x, x ∈ distinct l <-> x ∈ l.
Proof.
  destruct (first_seen_spec l []) as [Hnd Hel]. split; [done|].
  intros x. rewrite Hel, elem_of_nil. tauto.
Qed.

Lemma compare_year_le cs s1 s2 :
  compare_year cs s1 s2 <= 0 ->
  Libc.strcmp (year (target s2)) (year (target s1)) <= 0.
Proof.
  unfold compare_year. cbv zeta.
  destruct (Z.eqb_spec (Libc.strcmp (year (target s2)) (year (target s1))) 0); lia.
Qed.

Lemma in_order_descending cs base es :
  in_order (compare_year cs) base es -> descending (map year es).
Proof.
  intros Hord.
  assert (Hadj : forall (i : nat) t1 t2, es !! i = Some t1 -> es !! S i = Some t2 ->
                   Libc.strcmp (year t2) (year t1) <= 0).
  { intros i t1 t2 H1 H2. apply (compare_year_le cs _ _ (Hord i t1 t2 H1 H2)). }
  clear Hord. induction es as [|e1 [|e2 es] IH]; [done..|].
  split.
  - apply (Hadj 0%nat); done.
  - apply IH. intros i t1 t2 H1 H2. apply (Hadj (S i)); done.
Qed.

Lemma year_body_select_labels fs es : forall y c,
  forallb (fun g => negb (bool_decide (g ∈ fs))) table_fmts = true ->
  select fs (for_each year_body es (y, c)).1 =
  flat_map (fun x => select fs (year_label x)) (changes y (map year es)).
Proof.
  intros y c Hfs. revert y c.
  induction es as [|e es IH]; intros y c; [done|].
  cbn [for_each map changes]. unfold year_body at 1.
  destruct (negb _).
  - specialize (IH (year e) (count_degree e c)).
    destruct (for_each _ es _) as [cs st]. cbn [fst flat_map] in *.
    rewrite !select_app, IH, (select_disjoint _ _ _ (table_calls e)) by done.
    by rewrite app_nil_r.
  - specialize (IH y (count_degree e c)).
    destruct (for_each _ es _) as [cs st]. cbn [fst] in *.
    rewrite !select_app, IH, (select_disjoint _ _ _ (table_calls e)) by done.
    done.
Qed.

Lemma changes_same y l : changes y (y :: l) = changes y l.
Proof. cbn [changes]. by rewrite LibcFacts.strcmp_refl. Qed.

Lemma distinct_cons y l : distinct (y :: l) = y :: first_seen [y] l.
Proof. done. Qed.

Lemma changes_distinct y l :
  Forall (fun s => is_cstring s = true) (y :: l) -> descending (y :: l) ->
  y :: changes y (y :: l) = distinct (y :: l).
Proof.
  intros Hc Hd. rewrite changes_same, distinct_cons. f_equal.
  pose proof Hc as Hc'. apply Forall_cons in Hc' as [Hy Hl].
  apply changes_first_seen.
  - cbn [app]. by apply Forall_cons.
  - apply list_elem_of_here.
  - apply Forall_cons. split; [by rewrite LibcFacts.strcmp_refl|constructor].
  - by apply descending_le.
  - destruct l; [done|apply Hd].
Qed.

Lemma flat_map_singleton {A B} (f : A -> B) (l : list A) :
  flat_map (fun x => [f x]) l = map f l.
Proof. induction l; simpl; congruence. Qed.

Lemma select_map_call fs f (g : string -> list arg) l :
  select fs (map (fun x => Fprintf f (g x)) l) =
  if bool_decide (f ∈ fs) then map (fun x => Fprintf f (g x)) l else [].
Proof.
  induction l as [|x l IH]; cbn [map]; [by destruct (bool_decide _)|].
  rewrite select_cons, IH. by destruct (bool_decide _).
Qed.

Lemma select_year_labels fs l :
  flat_map (fun x => select fs (year_label x)) l =
  flat_map (fun x =>
      (if bool_decide (Fmt.year_anchor ∈ fs)
       then [Fprintf Fmt.year_anchor [Str x]] else []) ++
      (if bool_decide (Fmt.year_heading ∈ fs)
       then [Fprintf Fmt.year_heading [Str x]] else [])) l.
Proof.
  induction l as [|x l IH]; [done|]. cbn [flat_map]. rewrite IH. f_equal.
  unfold year_label. rewrite !select_cons, select_nil.
  by do 2 destruct (bool_decide _).
Qed.

(** What the year page shows of the years: the calls made with the formats
    [fs], from the link and the label of the first year on. *)
Lemma year_page_select fs e0 es out :
  write_html_year (Some (e0 :: es)) (length (e0 :: es)) = Some out ->
  forallb (fun g => negb (bool_decide (g ∈ fs))) table_fmts = true ->
  forallb (fun g => negb (bool_decide (g ∈ fs))) footer_fmts = true ->
  forallb (fun g => negb (bool_decide (g ∈ fs)))
          [Fmt.begin_marker; Fmt.div_open; Fmt.nav_open; Fmt.jump_to_year;
           Fmt.nav_close; Fmt.br] = true ->
  select fs out =
  (if bool_decide (Fmt.year_link ∈ fs)
   then [Fprintf Fmt.year_link [Str (year e0); Str (year e0)]] else []) ++
  (if bool_decide (Fmt.year_link_next ∈ fs)
   then map (fun x => Fprintf Fmt.year_link_next [Str x; Str x])
            (changes (year e0) (map year (e0 :: es)))
   else []) ++
  select fs (year_label (year e0)) ++
  flat_map (fun x => select fs (year_label x))
           (changes (year e0) (map year (e0 :: es))).
Proof.
  intros Hout Htab Hfoot Hfix.
  destruct (write_html_year_some e0 es (length (e0 :: es)) ltac:(simpl; lia))
    as (links & y & body & y' & ms & phd & Hl & Hb & Hout').
  rewrite Hout in Hout'. apply (inj Some) in Hout'. subst out.
  rewrite firstn_all in Hl, Hb.
  apply (f_equal fst) in Hl, Hb. cbn [fst] in Hl, Hb. subst links body.
  cbn [forallb] in Hfix. rewrite !andb_true_iff, !negb_true_iff in Hfix.
  destruct Hfix as (H1 & H2 & H3 & H4 & H5 & H6 & _).
  rewrite year_nav_links, !select_app.
  rewrite year_body_select_labels by done.
  rewrite (select_disjoint _ _ _ (footer_calls _ _ _)) by done.
  rewrite (select_map_call fs Fmt.year_link_next (fun x => [Str x; Str x])).
  rewrite !select_cons, !select_nil, H1, H2, H3, H4, H5, H6.
  unfold year_label. rewrite !select_cons, !select_nil.
  rewrite app_nil_r.
  by destruct (bool_decide (Fmt.year_link ∈ fs)).
Qed.

(** C6.  For entries in the order of [compare], with C strings for years,
    the year page has one link for every distinct year, in the order the
    years first appear, and as many anchors and headings, named the same;
    and among labels and tables, an anchor and a heading stand before the
    first table and before every table whose year is not that of the
    entry before it. *)
Theorem year_page_labels (cs : bool) (base : Z) (e0 : thesis) (es : list thesis) :
  Forall (fun e => is_cstring (year e) = true) (e0 :: es) ->
  in_order (compare_year cs) base (e0 :: es) ->
  exists out,
    write_html_year (Some (e0 :: es)) (length (e0 :: es)) = Some out /\
    map args (select [Fmt.year_link; Fmt.year_link_next] out)
      = map (fun y => [Str y; Str y]) (distinct (map year (e0 :: es))) /\
    map args (select [Fmt.year_anchor] out)
      = map (fun y => [Str y]) (distinct (map year (e0 :: es))) /\
    map args (select [Fmt.year_heading] out)
      = map (fun y => [Str y]) (distinct (map year (e0 :: es))) /\
    select (label_fmts ++ table_fmts) out = labelled None (e0 :: es).
Proof.
  intros Hc Hord.
  assert (Hcy : Forall (fun s => is_cstring s = true) (map year (e0 :: es)))
    by (by apply Forall_map).
  pose proof (in_order_descending _ _ _ Hord) as Hd.
  assert (Hdist : year e0 :: changes (year e0) (map year (e0 :: es))
                  = distinct (map year (e0 :: es)))
    by exact (changes_distinct _ _ Hcy Hd).
  destruct (write_html_year_tables e0 es (length (e0 :: es)) ltac:(simpl; lia))
    as (out & Hout & _ & _).
  exists out. split; [done|].
  rewrite <-Hdist. clear Hdist.
  set (ys := changes (year e0) (map year (e0 :: es))).
  split_and!.
  - rewrite (year_page_select _ _ _ _ Hout) by done. fold ys.
    rewrite select_year_labels. decide_fmt. cbn [app].
    rewrite flat_map_nil, app_nil_r. cbn [map]. by rewrite map_map.
  - rewrite (year_page_select _ _ _ _ Hout) by done. fold ys.
    rewrite select_year_labels. unfold year_label. rewrite !select_cons, select_nil.
    decide_fmt. cbn [app]. rewrite flat_map_singleton.
    cbn [map]. by rewrite map_map.
  - rewrite (year_page_select _ _ _ _ Hout) by done. fold ys.
    rewrite select_year_labels. unfold year_label. rewrite !select_cons, select_nil.
    decide_fmt. cbn [app]. rewrite flat_map_singleton.
    cbn [map]. by rewrite map_map.
  - clear ys.
    destruct (write_html_year_some e0 es (length (e0 :: es)) ltac:(simpl; lia))
      as (links & y & body & y' & ms & phd & Hl & Hb & Hout').
    rewrite Hout in Hout'. apply (inj Some) in Hout'. subst out.
    rewrite firstn_all in Hl, Hb.
    apply (f_equal fst) in Hl, Hb. cbn [fst] in Hl, Hb. subst links body.
    rewrite !select_app.
    rewrite (for_each_select _ _ (fun _ => []))
      by (intros; by apply year_nav_body_select).
    rewrite year_body_labelled by (done || by apply (Forall_inv Hc)).
    rewrite (select_disjoint _ _ _ (footer_calls _ _ _)) by done.
    rewrite flat_map_nil, !select_cons, !select_nil. decide_fmt.
    rewrite app_nil_r. cbn [labelled app].
    destruct (decide (None = Some (year e0))) as [?|_]; [done|].
    by rewrite decide_True by done.
Qed.

Lemma year_page_labels_witness :
  Forall (fun e => is_cstring (year e) = true) year_sample /\
  in_order (compare_year true) 0 year_sample /\
  exists out,
    write_html_year (Some year_sample) (length year_sample) = Some out /\
    map args (select [Fmt.year_link; Fmt.year_link_next] out)
      = map (fun y => [Str y; Str y]) (distinct (map year year_sample)) /\
    map args (select [Fmt.year_anchor] out)
      = map (fun y => [Str y]) (distinct (map year year_sample)) /\
    map args (select [Fmt.year_heading] out)
      = map (fun y => [Str y]) (distinct (map year year_sample)) /\
    select (label_fmts ++ table_fmts) out = labelled None year_sample.
Proof.
  assert (Hc : Forall (fun e => is_cstring (year e) = true) year_sample)
    by (repeat constructor).
  assert (Hord : in_order (compare_year true) 0 year_sample).
  { intros [|[|[|i]]] t1 t2 H1 H2; simpl in H1, H2; try discriminate;
      injection H1 as <-; injection H2 as <-; by vm_compute. }
  split; [exact Hc|]. split; [exact Hord|].
  exact (year_page_labels true 0 jones20 [smith20; smith19] Hc Hord).
Defined.

(** ** The text of a table *)

Lemma append_cons c a b : String c a +:+ b = String c (a +:+ b).
Proof. done. Qed.

Lemma append_nil b : EmptyString +:+ b = b.
Proof. done. Qed.

Lemma append_nil_r a : a +:+ EmptyString = a.
Proof. induction a as [|c a IH]; [done|]. by rewrite append_cons, IH. Qed.

Lemma append_assoc a b c : (a +:+ b) +:+ c = a +:+ (b +:+ c).
Proof. induction a as [|x a IH]; [done|]. by rewrite !append_cons, IH. Qed.

Ltac string_norm :=
  repeat (rewrite ?append_assoc, ?append_cons, ?append_nil, ?append_nil_r).

Lemma degree_row_render e :
  is_cstring (url e) = true -> render (degree_row e) = degree_row_text e.
Proof.
  intros Hu. unfold degree_row, degree_row_text, link_cell_text.
  destruct (url e) as [|c u] eqn:Hurl.
  - rewrite decide_True by done. cbn [first_char]. rewrite Ascii.eqb_refl.
    vm_compute. string_norm. reflexivity.
  - rewrite decide_False by done. cbn [first_char].
    apply LibcFacts.is_cstring_cons in Hu as [Hc _].
    destruct (Ascii.eqb_spec c "000"%char) as [->|_]; [done|].
    vm_compute. string_norm. reflexivity.
Qed.

Lemma table_render e :
  is_cstring (url e) = true -> render (table e) = table_text e.
Proof.
  intros Hu. unfold table_text. rewrite <-(degree_row_render e Hu).
  unfold table, degree_row.
  destruct (Ascii.eqb _ _); vm_compute; string_norm; reflexivity.
Qed.


Lemma records_entries ls :
  Forall (fun l => plain l = true) ls ->
  records (map (fun l => l +:+ Fmt.nl) ls) = entries ls.
Proof.
  induction ls as [l Hl|a y t ad af d u sep rest IH] using groups_ind; intros Hp.
  - do 8 (try destruct l as [|? l]); simpl in Hl; try lia; try done.
    cbn [map records entries]. unfold record_of.
    repeat (apply Forall_cons in Hp as [? Hp]).
    by rewrite !LibcFacts.trim_line_plain.
  - cbn [map records entries]. unfold record_of.
    repeat (apply Forall_cons in Hp as [? Hp]).
    rewrite IH by done. by rewrite !LibcFacts.trim_line_plain.
Qed.

Lemma entries_cstrings ls :
  Forall (fun l => plain l = true) ls ->
  Forall (fun e => cstrings e = true) (entries ls).
Proof.
  intros Hp. rewrite <-records_entries by done. apply records_cstrings.
Qed.

Lemma records_text_file ls :
  Forall text_line ls -> records (read_lines (text_file ls)) = entries ls.
Proof.
  intros Hls. rewrite read_lines_text by done.
  apply records_entries. eapply Forall_impl; [done|]. by intros l [? _].
Qed.

Lemma text_file_nil ls : text_file ls = EmptyString -> ls = [].
Proof. destruct ls as [|[|c l] ls]; done. Qed.

(** C7.  For a text file of at most [MAX_DOC - 1] entries, both programs
    print the tables of the entries of the file, in the order [qsort]
    leaves them in, and nothing else with the formats of a table; the
    entries shown are those of the file, every member the line it was read
    from, and the text of a table holds the members as they are.  The copy
    [compare] turns to upper case never reaches the array. *)
Theorem fields_shown_verbatim (cs : bool) (indet : thesis)
    (qsort : (ptr -> ptr -> Z) -> list thesis -> list thesis)
    (fopen : string -> option FILE) (argv : list string) (ls : list string) :
  (forall cmp es, Permutation (qsort cmp es) es) ->
  Forall text_line ls ->
  fopen (input_name argv) = Some (text_file ls) ->
  ls <> [] ->
  (length (entries ls) < MAX_DOC)%nat ->
  Forall (fun e => render (table e) = table_text e) (entries ls) /\
  (exists out shown,
     main_alpha cs indet qsort fopen argv = Some (Result 0 out []) /\
     Permutation shown (entries ls) /\
     select table_fmts out = flat_map table shown) /\
  (exists out shown,
     main_year cs indet qsort fopen argv = Some (Result 0 out []) /\
     Permutation shown (entries ls) /\
     select table_fmts out = flat_map table shown).
Proof.
  intros Hperm Hls Hfp Hne Hn.
  pose proof (records_text_file ls Hls) as Hrec.
  split_and!.
  - eapply Forall_impl; [apply entries_cstrings|].
    + eapply Forall_impl; [exact Hls|]. by intros l [? _].
    + intros e (_ & _ & _ & _ & _ & _ & Hu)%cstrings_fields. by apply table_render.
  - destruct (main_alpha_below cs indet qsort fopen argv _ Hperm Hfp)
      as (out & shown & Hmain & Hp & Hsel & _); [by rewrite Hrec|].
    rewrite Hrec in Hp. eauto.
  - destruct (main_year_nonempty cs indet qsort fopen argv _ Hperm Hfp)
      as (out & shown & Hmain & Hp & Hsel & _).
    { intros H. by apply text_file_nil in H. }
    rewrite Hrec in Hp. eauto.
Qed.

Lemma fields_shown_verbatim_witness :
  let ls := lower_case_group ++ sample_group in
  (forall cmp es, Permutation (insertion_qsort cmp es) es) /\
  Forall text_line ls /\
  ls <> [] /\
  (length (entries ls) < MAX_DOC)%nat /\
  Forall (fun e => render (table e) = table_text e) (entries ls) /\
  (exists out shown,
     main_alpha true junk insertion_qsort (fun _ => Some (text_file ls)) []
       = Some (Result 0 out []) /\
     Permutation shown (entries ls) /\
     select table_fmts out = flat_map table shown) /\
  (exists out shown,
     main_year true junk insertion_qsort (fun _ => Some (text_file ls)) []
       = Some (Result 0 out []) /\
     Permutation shown (entries ls) /\
     select table_fmts out = flat_map table shown).
Proof.
  intros ls.
  assert (Hls : Forall text_line ls).
  { repeat constructor; vm_compute; lia. }
  assert (Hne : ls <> []) by done.
  assert (Hn : (length (entries ls) < MAX_DOC)%nat) by (vm_compute; lia).
  split; [exact insertion_qsort_perm|]. split; [exact Hls|].
  split; [exact Hne|]. split; [exact Hn|].
  exact (fields_shown_verbatim true junk insertion_qsort
           (fun _ => Some (text_file ls)) [] ls
           insertion_qsort_perm Hls eq_refl Hne Hn).
Defined.

Lemma flat_map_app_cons {A B} (f : A -> list B) l1 x l2 :
  flat_map f (l1 ++ x :: l2) = flat_map f l1 ++ f x ++ flat_map f l2.
Proof. by rewrite flat_map_app. Qed.

(** C8.  The row of the degree is one cell when [url] is empty and has a
    second cell otherwise, a link labelled URL to the stored [url], opened
    with target _blank; the row is part of the table of the entry, which
    both programs print for every entry. *)
Theorem degree_row_link (cs : bool) (e : thesis) (before after : list thesis) :
  is_cstring (url e) = true ->
  render (degree_row e) = degree_row_text e /\
  (exists rows, table e = rows ++ degree_row e ++ [Fprintf Fmt.table_close []]) /\
  (exists out,
     write_html_alpha cs (before ++ e :: after) (length (before ++ e :: after))
       = Some out /\
     select table_fmts out
       = flat_map table before ++ table e ++ flat_map table after) /\
  (exists out,
     write_html_year (Some (before ++ e :: after)) (length (before ++ e :: after))
       = Some out /\
     select table_fmts out
       = flat_map table before ++ table e ++ flat_map table after).
Proof.
  intros Hu. split; [by apply degree_row_render|]. split; [by eexists|].
  split.
  - destruct (write_html_alpha_tables cs (before ++ e :: after)
                (length (before ++ e :: after)) ltac:(done))
      as (out & Hout & Hsel & _).
    exists out. split; [done|]. by rewrite Hsel, firstn_all, flat_map_app_cons.
  - destruct (before ++ e :: after) as [|e0 arr] eqn:Harr; [by destruct before|].
    destruct (write_html_year_tables e0 arr (length (e0 :: arr)) ltac:(simpl; lia))
      as (out & Hout & Hsel & _).
    exists out. split; [done|].
    by rewrite Hsel, firstn_all, <-Harr, flat_map_app_cons.
Qed.

Lemma degree_row_link_witness :
  is_cstring (url harris) = true /\
  is_cstring (url (set_url "http://example.org/h" harris)) = true /\
  render (degree_row harris)
    = "    <tr><td><b>Degree:</b> PhD</td></tr>" +:+ Fmt.nl /\
  render (degree_row (set_url "http://example.org/h" harris))
    = "    <tr><td><b>Degree:</b> PhD</td><td align=" +:+ Fmt.dq +:+ "right"
      +:+ Fmt.dq +:+ "><a href=" +:+ Fmt.dq +:+ "http://example.org/h" +:+ Fmt.dq
      +:+ " target=" +:+ Fmt.dq +:+ "_blank" +:+ Fmt.dq +:+ ">URL</a></td></tr>"
      +:+ Fmt.nl.
Proof.
  split; [reflexivity|]. split; [reflexivity|].
  split.
  - exact (proj1 (degree_row_link true harris [adams] [zimmer] eq_refl)).
  - exact (proj1 (degree_row_link true (set_url "http://example.org/h" harris)
                    [adams] [zimmer] eq_refl)).
Defined.


(** * Further properties of the two programs *)

(** ** The lines [fgets] returns *)

Lemma fgets_chars_shape n fp line rest :
  fgets_chars n fp = (line, rest) ->
  (String.length line <= n)%nat /\ line_shape line.
Proof.
  revert fp line rest. induction n as [|n IH]; intros fp line rest.
  - intros H. assert (line = EmptyString) as -> by (by destruct fp; injection H).
    split; [simpl; lia|]. exists EmptyString. auto.
  - destruct fp as [|c fp].
    { intros H. assert (line = EmptyString) as -> by (by injection H).
      split; [simpl; lia|]. exists EmptyString. auto. }
    cbn [fgets_chars]. destruct (Ascii.eqb_spec c "010"%char) as [->|Hc].
    + intros H. assert (line = Fmt.nl) as -> by (by injection H).
      split; [simpl; lia|]. exists EmptyString. auto.
    + destruct (fgets_chars n fp) as [l r] eqn:E. intros H.
      assert (line = String c l) as -> by (by injection H).
      destruct (IH _ _ _ E) as [Hlen (body & Hb & Hl)].
      split; [simpl; lia|]. exists (String c body). split.
      * simpl. rewrite Hb. by destruct (Ascii.eqb_spec c "010"%char).
      * destruct Hl as [->| ->]; auto.
Qed.

Lemma fgets_shape fp line rest :
  fgets STRLEN fp = Some (line, rest) ->
  line <> EmptyString /\ (String.length line <= STRLEN - 1)%nat /\ line_shape line.
Proof.
  destruct fp as [|c fp]; [done|]. unfold fgets. intros H.
  apply (inj Some) in H. split; [|by apply fgets_chars_shape in H].
  assert (STRLEN - 1 = S (STRLEN - 2))%nat as Hn by reflexivity.
  rewrite Hn in H. cbn [fgets_chars] in H.
  destruct (Ascii.eqb c "010").
  - apply (f_equal fst) in H. cbn [fst] in H. by subst line.
  - destruct (fgets_chars _ fp) as [l r]. apply (f_equal fst) in H.
    cbn [fst] in H. by subst line.
Qed.

Lemma read_lines_shape fp :
  Forall (fun l => l <> EmptyString /\ (String.length l <= STRLEN - 1)%nat /\
                   line_shape l) (read_lines fp).
Proof.
  unfold read_lines. generalize (String.length fp) as fuel. intros fuel.
  revert fp. induction fuel as [|fuel IH]; intros fp; [constructor|].
  cbn [lines_from]. destruct (fgets STRLEN fp) as [[line rest]|] eqn:E;
    [|constructor].
  constructor; [by eapply fgets_shape|apply IH].
Qed.

(** X1.  The loop [while (fgets (line, STRLEN, fp) != NULL)] loses no byte
    of the file: the lines it sees, put end to end, are the file.  Every
    line has a byte at least and [STRLEN - 1] at most, and no newline but
    at its end. *)
Theorem read_lines_partition (fp : FILE) :
  foldr String.append EmptyString (read_lines fp) = fp /\
  Forall (fun l => l <> EmptyString /\ (String.length l <= STRLEN - 1)%nat /\
                   line_shape l) (read_lines fp).
Proof. split; [apply read_lines_concat|apply read_lines_shape]. Qed.

(** X2.  A text file is read back line by line: when the lines written have
    no CR, LF or NUL and leave room for the newline in the buffer, [fgets]
    returns each of them with its newline, as many as were written, and
    trimmed they are the lines written. *)
Theorem text_file_lines (ls : list string) :
  Forall text_line ls ->
  read_lines (text_file ls) = map (fun l => l +:+ Fmt.nl) ls /\
  length (read_lines (text_file ls)) = length ls /\
  map Libc.trim_line (read_lines (text_file ls)) = ls.
Proof.
  intros Hls. rewrite read_lines_text by done. split; [done|].
  split; [by rewrite length_map|].
  rewrite map_map. induction Hls as [|l ls [Hp _] _ IH]; [done|].
  cbn [map]. by rewrite LibcFacts.trim_line_plain, IH.
Qed.

Lemma text_file_lines_witness :
  Forall text_line sample_group /\
  read_lines (text_file sample_group) = map (fun l => l +:+ Fmt.nl) sample_group /\
  length (read_lines (text_file sample_group)) = length sample_group /\
  map Libc.trim_line (read_lines (text_file sample_group)) = sample_group.
Proof.
  assert (H : Forall text_line sample_group) by (repeat constructor; vm_compute; lia).
  split; [exact H|]. exact (text_file_lines sample_group H).
Defined.


(** X4.  The trimming cuts a line at its first CR, LF or NUL and keeps all
    that stands before: text free of the three comes back as it is,
    whatever follows the byte that ends it.  A line that ends in CR LF is
    stored as the same line that ends in LF. *)
Theorem trim_line_stops (s tail : string) :
  plain s = true -> Libc.is_line_end (first_char tail) = true ->
  Libc.trim_line (s +:+ tail) = s.
Proof.
  intros Hp Ht. induction s as [|c s IH].
  - destruct tail as [|c t]; [done|]. cbn [first_char] in Ht.
    change (EmptyString +:+ String c t) with (String c t). simpl. by rewrite Ht.
  - change (String c s +:+ tail) with (String c (s +:+ tail)).
    simpl in Hp |- *. destruct (Libc.is_line_end c); [done|]. by rewrite IH.
Qed.

Lemma trim_line_stops_witness :
  plain "Doe, J." = true /\
  Libc.is_line_end (first_char (String "013"%char Fmt.nl)) = true /\
  Libc.trim_line ("Doe, J." +:+ String "013"%char Fmt.nl) = "Doe, J."%string.
Proof.
  split; [reflexivity|]. split; [reflexivity|].
  exact (trim_line_stops "Doe, J." (String "013"%char Fmt.nl) eq_refl eq_refl).
Defined.

(** ** What [parse_text] stores *)

Lemma trim_line_plain_result l : plain (Libc.trim_line l) = true.
Proof.
  induction l as [|c l IH]; [done|]. simpl.
  destruct (Libc.is_line_end c) eqn:E; [done|]. simpl. by rewrite E.
Qed.

Lemma trim_line_length l : (String.length (Libc.trim_line l) <= String.length l)%nat.
Proof.
  induction l as [|c l IH]; [done|]. simpl.
  destruct (Libc.is_line_end c); simpl; lia.
Qed.

Lemma records_Forall (P : string -> Prop) (Q : thesis -> Prop) lines :
  (forall a y t ad af d u, P a -> P y -> P t -> P ad -> P af -> P d -> P u ->
     Q (record_of a y t ad af d u)) ->
  Forall P lines -> Forall Q (records lines).
Proof.
  intros HQ. induction lines as [l Hl|a y t ad af d u sep rest IH] using groups_ind;
    intros HP.
  - do 8 (try destruct l as [|? l]); simpl in Hl; try lia; cbn [records];
      try constructor; [|constructor].
    repeat (apply Forall_cons in HP as [? HP]). by apply HQ.
  - cbn [records]. repeat (apply Forall_cons in HP as [? HP]).
    constructor; [by apply HQ|by apply IH].
Qed.

Lemma records_well_stored fp : Forall well_stored (records (read_lines fp)).
Proof.
  eapply (records_Forall (fun l => (String.length l <= STRLEN - 1)%nat)).
  - intros a y t ad af d u Ha Hy Ht Had Haf Hd Hu.
    unfold well_stored, fits, record_of.
    cbn [author year title advisor affiliation degree url].
    rewrite !trim_line_plain_result.
    pose proof (trim_line_length a). pose proof (trim_line_length y).
    pose proof (trim_line_length t). pose proof (trim_line_length ad).
    pose proof (trim_line_length af). pose proof (trim_line_length d).
    pose proof (trim_line_length u).
    assert (STRLEN - 1 < STRLEN)%nat by (unfold STRLEN; lia).
    repeat split; lia.
  - eapply Forall_impl; [apply read_lines_shape|]. by intros l (_ & ? & _).
Qed.

Lemma parse_alpha_take indet fp :
  let r := parse_text_alpha fp (replicate MAX_DOC indet) in
  r.1.1 = -1 \/
  (r.1.1 = Z.of_nat (length (records (read_lines fp))) /\
   take (Z.to_nat r.1.1) r.1.2 = records (read_lines fp)).
Proof.
  intros r. subst r.
  destruct (decide (length (records (read_lines fp)) < MAX_DOC)%nat) as [Hn|Hn].
  - right. rewrite parse_text_alpha_below by done. cbn [fst snd].
    split; [done|]. rewrite Nat2Z.id.
    destruct (layout_records indet (read_lines fp)) as (tl & -> & _).
    rewrite <-app_assoc. by apply take_app_length.
  - left. destruct (parse_text_alpha_full indet fp ltac:(lia)) as [arr ->]. done.
Qed.

(** X5.  In both programs every member of the entries [parse_text] counts
    is free of CR, LF and NUL and shorter than [STRLEN]: with its NUL it
    fits the [char[STRLEN]] it was copied to. *)
Theorem parsed_members_fit (indet : thesis) (fp : FILE) :
  Forall well_stored
    (take (parse_text_year indet fp).2 (default [] (parse_text_year indet fp).1)) /\
  Forall well_stored
    (take (Z.to_nat (parse_text_alpha fp (replicate MAX_DOC indet)).1.1)
          (parse_text_alpha fp (replicate MAX_DOC indet)).1.2).
Proof.
  split.
  - rewrite parse_text_year_spec. cbn [fst snd].
    destruct (read_lines fp) as [|l ls] eqn:E; [constructor|]. rewrite <-E.
    cbn [from_option id]. rewrite layout_take_records. apply records_well_stored.
  - destruct (parse_alpha_take indet fp) as [->|[_ ->]];
      [constructor|apply records_well_stored].
Qed.

Lemma parsed_year_records indet lines : parsed_year indet lines = records lines.
Proof.
  unfold parsed_year. rewrite parse_lines_year_layout by done. cbn [fst snd].
  destruct lines as [|l ls] eqn:E; [done|]. rewrite <-E.
  cbn [from_option id]. apply layout_take_records.
Qed.

Lemma records_app l1 l2 :
  (length l1 mod 8 = 0)%nat -> records (l1 ++ l2) = records l1 ++ records l2.
Proof.
  induction l1 as [l Hl|a y t ad af d u sep rest IH] using groups_ind; intros Hmod.
  - rewrite Nat.mod_small in Hmod by done. by destruct l.
  - cbn [app records]. rewrite IH; [done|].
    revert Hmod. cbn [length]. clear. intros. div_lia.
Qed.

Lemma records_short l : (length l < 7)%nat -> records l = [].
Proof. intros Hl. do 7 (try destruct l as [|? l]); simpl in Hl; try lia; done. Qed.

(** X6.  Lines in whole groups of eight are parsed apart from what follows
    them: the entries of [l1 ++ l2] are those of [l1] followed by those of
    [l2], and fewer than seven lines after the last group add no entry. *)
Theorem whole_groups_compose (indet : thesis) (l1 l2 : list string) :
  (length l1 mod 8 = 0)%nat ->
  parsed_year indet (l1 ++ l2) = parsed_year indet l1 ++ parsed_year indet l2 /\
  ((length l2 < 7)%nat -> parsed_year indet (l1 ++ l2) = parsed_year indet l1).
Proof.
  intros Hmod. rewrite !parsed_year_records, records_app by done.
  split; [done|]. intros Hl2. by rewrite (records_short l2), app_nil_r.
Qed.

Lemma whole_groups_compose_witness :
  (length (read_lines (groups_file 1)) mod 8 = 0)%nat /\
  parsed_year junk (read_lines (groups_file 1) ++ read_lines two_lines)
    = parsed_year junk (read_lines (groups_file 1))
      ++ parsed_year junk (read_lines two_lines) /\
  ((length (read_lines two_lines) < 7)%nat ->
   parsed_year junk (read_lines (groups_file 1) ++ read_lines two_lines)
     = parsed_year junk (read_lines (groups_file 1))).
Proof.
  split; [reflexivity|].
  exact (whole_groups_compose junk (read_lines (groups_file 1)) (read_lines two_lines)
           eq_refl).
Defined.

Lemma parse_lines_alpha_overflow indet lines : forall cnt done k,
  length done = cnt -> (cnt + S k)%nat = MAX_DOC ->
  (MAX_DOC <= cnt + length (records lines))%nat ->
  parse_lines_alpha lines 0 cnt (done ++ replicate (S k) indet) =
  (-1, done ++ take (S k) (records lines), [Fprintf Fmt.too_many []]).
Proof.
  induction lines as [l Hl|a y t ad af d u sep rest IH] using groups_ind;
    intros cnt done k Hcnt Hk Hn.
  - assert (Hfull : (MAX_DOC <=? cnt)%nat = false) by (apply Nat.leb_gt; lia).
    do 8 (try destruct l as [|? l]); simpl in Hl; try lia; clear Hl;
      cbn [records length] in Hn; try lia.
    cbn -[replicate]. rewrite ?Hfull. cbn -[replicate].
    destruct (Nat.leb_spec MAX_DOC (S cnt)); [|lia].
    assert (k = 0%nat) as -> by lia. subst cnt. cbn [replicate].
    rewrite !alter_mid. done.
  - assert (Hfull : (MAX_DOC <=? cnt)%nat = false) by (apply Nat.leb_gt; lia).
    cbn -[replicate records take]. rewrite ?Hfull. cbn -[replicate records take].
    destruct (Nat.leb_spec MAX_DOC (S cnt)) as [Hge|Hlt].
    + assert (k = 0%nat) as -> by lia. subst cnt. cbn [replicate].
      rewrite !alter_mid. done.
    + destruct k as [|k]; [lia|].
      subst cnt. cbn [replicate]. rewrite !alter_mid.
      cbn -[replicate records take].
      specialize (IH (S (length done)) (done ++ [record_of a y t ad af d u]) k).
      rewrite length_app, <-app_assoc in IH.
      cbn -[replicate records MAX_DOC take] in IH.
      etrans; [apply IH; [lia|lia|]|].
      * cbn [records length] in Hn. lia.
      * by rewrite <-app_assoc.
Qed.

(** X7.  What [parse_text] of parse_theses.c returns, for any file, from
    [n = (reads + 1) / 8], the reads being the lines [fgets] returned in
    the loop.  Below [MAX_DOC] it returns [n] and prints
    nothing: the array holds the structs the lines went to and, after them,
    what it held before.  From [MAX_DOC] on it returns -1 with the one
    message on stderr, the array filled with the first [MAX_DOC] entries.
    The array has its [MAX_DOC] structs in both cases. *)
Theorem parse_text_alpha_limit (indet : thesis) (fp : FILE) :
  let n := ((length (read_lines fp) + 1) / 8)%nat in
  parse_text_alpha fp (replicate MAX_DOC indet) =
  (if decide (n < MAX_DOC)%nat
   then (Z.of_nat n,
         layout indet (read_lines fp)
           ++ replicate (MAX_DOC - length (layout indet (read_lines fp))) indet,
         [])
   else (-1, take MAX_DOC (records (read_lines fp)), [Fprintf Fmt.too_many []])) /\
  length (parse_text_alpha fp (replicate MAX_DOC indet)).1.2 = MAX_DOC.
Proof.
  intros n. subst n. rewrite <-records_length.
  destruct (decide (length (records (read_lines fp)) < MAX_DOC)%nat) as [Hn|Hn].
  - rewrite parse_text_alpha_below by done. split; [done|]. cbn [fst snd].
    pose proof (layout_length indet (read_lines fp)).
    rewrite length_app, length_replicate. lia.
  - unfold parse_text_alpha.
    pose proof (parse_lines_alpha_overflow indet (read_lines fp) 0 [] (MAX_DOC - 1)
                  eq_refl max_doc_pred ltac:(simpl; lia)) as H.
    rewrite max_doc_pred in H. cbn [app] in H. rewrite H. split; [done|].
    cbn [fst snd]. rewrite length_take. lia.
Qed.

Lemma fgets_chars_long n : forall l rest,
  plain l = true -> (n <= String.length l)%nat ->
  exists l1 l2, l = l1 +:+ l2 /\ String.length l1 = n /\
                fgets_chars n (l +:+ rest) = (l1, l2 +:+ rest).
Proof.
  induction n as [|n IH]; intros l rest Hp Hn.
  - exists EmptyString, l. repeat split.
  - destruct l as [|c l]; [simpl in Hn; lia|].
    simpl in Hp, Hn. apply andb_true_iff in Hp as [Hc Hp].
    destruct (IH l rest Hp ltac:(lia)) as (l1 & l2 & -> & Hlen & Hget).
    exists (String c l1), l2. split; [done|]. split; [simpl; lia|].
    change (String c (l1 +:+ l2) +:+ rest) with (String c ((l1 +:+ l2) +:+ rest)).
    cbn [fgets_chars]. unfold Libc.is_line_end in Hc.
    destruct (Ascii.eqb c "010"); [done|]. by rewrite Hget.
Qed.

Lemma layout_first_two indet a y rest :
  exists e tl, layout indet (a :: y :: rest) = e :: tl /\
               author e = Libc.trim_line a /\ year e = Libc.trim_line y.
Proof. do 6 (try destruct rest as [|? rest]); cbn [layout]; eauto. Qed.

Lemma records_first_two a y rest :
  records (a :: y :: rest) = [] \/
  exists e tl, records (a :: y :: rest) = e :: tl /\
               author e = Libc.trim_line a /\ year e = Libc.trim_line y.
Proof.
  do 5 (destruct rest as [|? rest]; [by left|]). right.
  cbn [records]. unfold record_of. eauto.
Qed.

Lemma parse_text_alpha_first indet fp a y rest :
  read_lines fp = a :: y :: rest ->
  exists e tl,
    (parse_text_alpha fp (replicate MAX_DOC indet)).1.2 = e :: tl /\
    author e = Libc.trim_line a /\ year e = Libc.trim_line y.
Proof.
  intros Hl.
  destruct (decide (length (records (read_lines fp)) < MAX_DOC)%nat) as [Hn|Hn].
  - rewrite parse_text_alpha_below by done. cbn [fst snd]. rewrite Hl.
    destruct (layout_first_two indet a y rest) as (e & tl & -> & Ha & Hy).
    by exists e, (tl ++ replicate (MAX_DOC - length (e :: tl)) indet).
  - unfold parse_text_alpha.
    pose proof (parse_lines_alpha_overflow indet (read_lines fp) 0 [] (MAX_DOC - 1)
                  eq_refl max_doc_pred ltac:(simpl; lia)) as H.
    rewrite max_doc_pred in H. cbn [app] in H. rewrite H. cbn [fst snd].
    rewrite Hl in Hn |- *.
    destruct (records_first_two a y rest) as [Hr|(e & tl & Hr & Ha & Hy)].
    + rewrite Hr in Hn. simpl in Hn. unfold MAX_DOC in Hn. lia.
    + rewrite Hr. exists e, (take (MAX_DOC - 1) tl). split; [|done].
      by rewrite <-max_doc_pred.
Qed.

Lemma fgets_some fp :
  fp <> EmptyString -> fgets STRLEN fp = Some (fgets_chars (STRLEN - 1) fp).
Proof. by destruct fp. Qed.

(** X3.  A line of 511 to 1021 bytes at the head of a file, with its
    newline, is read as two lines: [fgets] returns its first [STRLEN - 1]
    bytes, then the bytes left with the newline, and after them what it
    returns for the rest of the file.  The trimming leaves the first piece
    whole and takes the newline off the second.  In both programs the first
    piece is stored as the author and the second piece as the year of the
    first struct. *)
Theorem long_line_split (indet : thesis) (l rest : string) :
  plain l = true ->
  (STRLEN - 1 <= String.length l)%nat ->
  (String.length l < 2 * (STRLEN - 1))%nat ->
  exists l1 l2,
    l = l1 +:+ l2 /\ String.length l1 = (STRLEN - 1)%nat /\
    read_lines (l +:+ Fmt.nl +:+ rest) = l1 :: (l2 +:+ Fmt.nl) :: read_lines rest /\
    Libc.trim_line l1 = l1 /\ Libc.trim_line (l2 +:+ Fmt.nl) = l2 /\
    (exists e tl,
       (parse_text_year indet (l +:+ Fmt.nl +:+ rest)).1 = Some (e :: tl) /\
       author e = l1 /\ year e = l2) /\
    (exists e tl,
       (parse_text_alpha (l +:+ Fmt.nl +:+ rest) (replicate MAX_DOC indet)).1.2
       = e :: tl /\
       author e = l1 /\ year e = l2).
Proof.
  intros Hp Hmin Hmax.
  destruct (fgets_chars_long (STRLEN - 1) l (Fmt.nl +:+ rest) Hp Hmin)
    as (l1 & l2 & -> & Hlen & Hget).
  rewrite string_length_app in Hmin, Hmax.
  assert (Hp1 : plain l1 = true /\ plain l2 = true).
  { clear -Hp. induction l1 as [|c l1 IH]; [done|].
    change (String c l1 +:+ l2) with (String c (l1 +:+ l2)) in Hp.
    simpl in Hp |- *. destruct (Libc.is_line_end c); [done|]. by apply IH. }
  destruct Hp1 as [Hp1 Hp2].
  assert (Ht1 : Libc.trim_line l1 = l1).
  { clear -Hp1. induction l1 as [|c l1 IH]; [done|]. simpl in Hp1 |- *.
    destruct (Libc.is_line_end c); [done|]. by rewrite IH. }
  assert (Ht2 : Libc.trim_line (l2 +:+ Fmt.nl) = l2)
    by (by apply LibcFacts.trim_line_plain).
  assert (Hreads : read_lines ((l1 +:+ l2) +:+ Fmt.nl +:+ rest)
                   = l1 :: (l2 +:+ Fmt.nl) :: read_lines rest).
  { rewrite (read_lines_cons _ l1 (l2 +:+ Fmt.nl +:+ rest)).
    - f_equal. apply read_lines_cons. apply fgets_line; [done|lia].
    - rewrite fgets_some, Hget; [done|]. by destruct l1. }
  exists l1, l2. split_and!; try done.
  - rewrite parse_text_year_spec, Hreads. cbn [fst].
    destruct (layout_first_two indet l1 (l2 +:+ Fmt.nl) (read_lines rest))
      as (e & tl & -> & Ha & Hy).
    exists e, tl. by rewrite Ha, Hy, Ht1, Ht2.
  - destruct (parse_text_alpha_first indet _ _ _ _ Hreads) as (e & tl & -> & Ha & Hy).
    exists e, tl. by rewrite Ha, Hy, Ht1, Ht2.
Qed.

Lemma long_line_split_witness :
  plain (filler 600) = true /\
  (STRLEN - 1 <= String.length (filler 600))%nat /\
  (String.length (filler 600) < 2 * (STRLEN - 1))%nat /\
  exists l1 l2,
    filler 600 = l1 +:+ l2 /\ String.length l1 = (STRLEN - 1)%nat /\
    read_lines (filler 600 +:+ Fmt.nl +:+ two_lines)
    = l1 :: (l2 +:+ Fmt.nl) :: read_lines two_lines /\
    Libc.trim_line l1 = l1 /\ Libc.trim_line (l2 +:+ Fmt.nl) = l2 /\
    (exists e tl,
       (parse_text_year junk (filler 600 +:+ Fmt.nl +:+ two_lines)).1
       = Some (e :: tl) /\
       author e = l1 /\ year e = l2) /\
    (exists e tl,
       (parse_text_alpha (filler 600 +:+ Fmt.nl +:+ two_lines)
                         (replicate MAX_DOC junk)).1.2 = e :: tl /\
       author e = l1 /\ year e = l2).
Proof.
  assert (Hp : plain (filler 600) = true) by (vm_compute; reflexivity).
  assert (Hn : (STRLEN - 1 <= String.length (filler 600))%nat) by (vm_compute; lia).
  assert (Hm : (String.length (filler 600) < 2 * (STRLEN - 1))%nat)
    by (vm_compute; lia).
  split; [exact Hp|]. split; [exact Hn|]. split; [exact Hm|].
  exact (long_line_split junk (filler 600) two_lines Hp Hn Hm).
Defined.

Lemma store_in_bounds set line cnt entry :
  (cnt < length entry)%nat -> (String.length line < STRLEN)%nat ->
  store set (Libc.trim_line line) cnt entry
  = Some (alter (set (Libc.trim_line line)) cnt entry).
Proof.
  intros Hc Hl. unfold store. rewrite decide_True; [done|].
  split; [done|]. pose proof (trim_line_length line). lia.
Qed.

Lemma parse_lines_alpha_in_bounds lines : forall i cnt entry,
  Forall (fun l => (String.length l < STRLEN)%nat) lines ->
  (cnt < MAX_DOC)%nat -> length entry = MAX_DOC ->
  parse_lines_alpha_checked lines i cnt entry
  = Some (parse_lines_alpha lines i cnt entry).
Proof.
  induction lines as [|line lines IH]; intros i cnt entry Hl Hc He; [done|].
  apply Forall_cons in Hl as [Hline Hl].
  cbn [parse_lines_alpha_checked parse_lines_alpha].
  rewrite decide_True by done. cbv zeta.
  assert (Hin : (cnt < length entry)%nat) by lia.
  do 7 (destruct i as [|i];
    [rewrite store_in_bounds by done; cbn [fmap option_fmap option_map];
     destruct (Nat.leb_spec MAX_DOC cnt); try lia;
     try (destruct (Nat.leb_spec MAX_DOC (S cnt)); [done|]);
     apply IH; [done|lia|by rewrite length_alter]|]).
  destruct (Nat.leb_spec MAX_DOC cnt); [lia|]. by apply IH.
Qed.

Lemma parse_lines_year_in_bounds indet lines : forall i cnt entry,
  Forall (fun l => (String.length l < STRLEN)%nat) lines ->
  (entry = None -> cnt = 0%nat) ->
  ((1 <= i <= 6)%nat -> exists arr, entry = Some arr /\ (cnt < length arr)%nat) ->
  parse_lines_year_checked indet lines i cnt entry
  = Some (parse_lines_year indet lines i cnt entry).
Proof.
  induction lines as [|line lines IH]; intros i cnt entry Hl Hnull Hmid; [done|].
  apply Forall_cons in Hl as [Hline Hl].
  cbn [parse_lines_year_checked parse_lines_year].
  rewrite decide_True by done. cbv zeta.
  destruct i as [|i].
  { assert (Hg : exists arr, grow indet entry cnt = Some arr /\ (cnt < length arr)%nat).
    { destruct entry as [arr|]; cbn [grow].
      - eexists. split; [done|]. rewrite length_resize. lia.
      - eexists. split; [done|]. rewrite Hnull by done. simpl. lia. }
    destruct Hg as (arr & -> & Harr). cbn [mbind option_bind].
    rewrite store_in_bounds by done. cbn [fmap option_fmap option_map].
    apply IH; [done|done|]. intros _. eexists. split; [done|].
    by rewrite length_alter. }
  do 5 (destruct i as [|i];
    [destruct Hmid as (arr & -> & Harr); [lia|]; cbn [mbind option_bind];
     rewrite store_in_bounds by done; cbn [fmap option_fmap option_map];
     apply IH; [done|done|]; intros _; eexists; split; [done|];
     by rewrite length_alter|]).
  destruct i as [|i].
  { destruct Hmid as (arr & -> & Harr); [lia|]. cbn [mbind option_bind].
    rewrite store_in_bounds by done. cbn [fmap option_fmap option_map].
    apply IH; [done|done|]. cbn. lia. }
  apply IH; [done|done|].
  destruct i as [|i]; [cbn; lia|].
  assert (Hne : (S (S (S (S (S (S (S (S (S i)))))))) =? 8)%nat = false)
    by (apply Nat.eqb_neq; lia).
  rewrite Hne. lia.
Qed.

Lemma read_lines_fit fp :
  Forall (fun l => (String.length l < STRLEN)%nat) (read_lines fp).
Proof.
  eapply Forall_impl; [apply read_lines_shape|].
  intros l (_ & H & _). unfold STRLEN in *. lia.
Qed.

(** X8.  No [strcpy] of either [parse_text] leaves its destination.  With
    every line checked against [line[STRLEN]] and every store against the
    array and the [STRLEN] bytes of the member, the two loops run to the
    end of every file, and with the result of the loops as first written.
    [malloc] and [realloc] are taken to succeed. *)
Theorem parse_text_stores_in_bounds (indet : thesis) (fp : FILE) :
  parse_lines_alpha_checked (read_lines fp) 0 0 (replicate MAX_DOC indet)
    = Some (parse_text_alpha fp (replicate MAX_DOC indet)) /\
  parse_lines_year_checked indet (read_lines fp) 0 0 None
    = Some (parse_text_year indet fp).
Proof.
  split.
  - apply parse_lines_alpha_in_bounds; [apply read_lines_fit|unfold MAX_DOC; lia|].
    apply length_replicate.
  - apply parse_lines_year_in_bounds; [apply read_lines_fit|done|lia].
Qed.

(** The checks are not idle: an array of one struct is left by the second
    entry, and a member stored before the first [malloc] goes through the
    NULL pointer. *)
Remark checked_parsers_fault :
  parse_lines_alpha_checked (read_lines (groups_file 2)) 0 0 [junk] = None /\
  parse_lines_year_checked junk (read_lines two_lines) 1 0 None = None.
Proof. split; by vm_compute. Qed.

(** ** The comparators as orders *)

Lemma compare_year_antisym cs s1 s2 :
  compare_year cs s2 s1 = - compare_year cs s1 s2.
Proof.
  unfold compare_year. cbv zeta.
  rewrite (LibcFacts.strcmp_antisym (year (target s2)) (year (target s1))).
  rewrite (LibcFacts.strcmp_antisym (upper_first cs (author (target s1)))
                                    (upper_first cs (author (target s2)))).
  destruct (Z.eqb_spec (Libc.strcmp (year (target s2)) (year (target s1))) 0) as [->|Hne].
  - done.
  - destruct (Z.eqb_spec (- Libc.strcmp (year (target s2)) (year (target s1))) 0); [lia|done].
Qed.

Lemma strcmp_lt_trans a b c :
  is_cstring a = true -> is_cstring b = true -> is_cstring c = true ->
  Libc.strcmp a b <= 0 -> Libc.strcmp b c <= 0 -> Libc.strcmp a c = 0 ->
  Libc.strcmp a b = 0 /\ Libc.strcmp b c = 0.
Proof.
  intros Ha Hb Hc Hab Hbc Hac.
  apply LibcFacts.strcmp_eq in Hac; [|done..]. subst c.
  rewrite (LibcFacts.strcmp_antisym a b) in Hbc |- *. lia.
Qed.

Lemma year_author_trans y1 y2 y3 a1 a2 a3 :
  is_cstring y1 = true -> is_cstring y2 = true -> is_cstring y3 = true ->
  is_cstring a1 = true -> is_cstring a2 = true -> is_cstring a3 = true ->
  (if Libc.strcmp y2 y1 =? 0 then Libc.strcmp a1 a2 else Libc.strcmp y2 y1) <= 0 ->
  (if Libc.strcmp y3 y2 =? 0 then Libc.strcmp a2 a3 else Libc.strcmp y3 y2) <= 0 ->
  (if Libc.strcmp y3 y1 =? 0 then Libc.strcmp a1 a3 else Libc.strcmp y3 y1) <= 0.
Proof.
  intros Hy1 Hy2 Hy3 Ha1 Ha2 Ha3.
  destruct (Z.eqb_spec (Libc.strcmp y2 y1) 0) as [E21|N21];
    destruct (Z.eqb_spec (Libc.strcmp y3 y2) 0) as [E32|N32]; intros H12 H23.
  - apply LibcFacts.strcmp_eq in E21, E32; [|done..]. subst y2 y3.
    rewrite LibcFacts.strcmp_refl. cbn [Z.eqb].
    by apply (LibcFacts.strcmp_trans a1 a2 a3).
  - apply LibcFacts.strcmp_eq in E21; [|done..]. subst y2.
    destruct (Z.eqb_spec (Libc.strcmp y3 y1) 0); done.
  - apply LibcFacts.strcmp_eq in E32; [|done..]. subst y3.
    destruct (Z.eqb_spec (Libc.strcmp y2 y1) 0); done.
  - pose proof (LibcFacts.strcmp_trans y3 y2 y1 Hy3 Hy2 Hy1 H23 H12) as H31.
    destruct (Z.eqb_spec (Libc.strcmp y3 y1) 0) as [E31|N31]; [|done].
    destruct (strcmp_lt_trans y3 y2 y1 Hy3 Hy2 Hy1 H23 H12 E31). done.
Qed.

(** X9.  On entries made of C strings, [compare] of parse_theses_year.c is
    an order [qsort] can sort by: swapping the arguments negates the
    result, before-or-equal is transitive, and the result is 0 for two
    entries of the same year whose authors are the same once the first
    letter is in upper case, and for no others. *)
Theorem compare_year_is_an_order (cs : bool) (s1 s2 s3 : ptr) :
  cstrings (target s1) = true -> cstrings (target s2) = true ->
  cstrings (target s3) = true ->
  compare_year cs s2 s1 = - compare_year cs s1 s2 /\
  (compare_year cs s1 s2 <= 0 -> compare_year cs s2 s3 <= 0 ->
   compare_year cs s1 s3 <= 0) /\
  (compare_year cs s1 s2 = 0 <->
   year (target s1) = year (target s2) /\
   normalized (author (target s1)) = normalized (author (target s2))).
Proof.
  intros (Ha1 & Hy1 & _)%cstrings_fields (Ha2 & Hy2 & _)%cstrings_fields
         (Ha3 & Hy3 & _)%cstrings_fields.
  apply normalized_cstring in Ha1, Ha2, Ha3.
  split; [apply compare_year_antisym|]. split.
  - unfold compare_year. cbv zeta. rewrite !upper_first_normalized.
    by apply year_author_trans.
  - unfold compare_year. cbv zeta. rewrite !upper_first_normalized.
    destruct (Z.eqb_spec (Libc.strcmp (year (target s2)) (year (target s1))) 0)
      as [E|N].
    + apply LibcFacts.strcmp_eq in E; [|done..]. split.
      * intros H. apply LibcFacts.strcmp_eq in H; done.
      * intros [_ ->]. apply LibcFacts.strcmp_refl.
    + split; [done|]. intros [Hy _]. rewrite Hy, LibcFacts.strcmp_refl in N. done.
Qed.

Lemma compare_year_is_an_order_witness :
  cstrings jones20 = true /\ cstrings smith20 = true /\ cstrings smith19 = true /\
  compare_year true (elem_ptr 0 1 smith20) (elem_ptr 0 0 jones20)
    = - compare_year true (elem_ptr 0 0 jones20) (elem_ptr 0 1 smith20) /\
  (compare_year true (elem_ptr 0 0 jones20) (elem_ptr 0 1 smith20) <= 0 ->
   compare_year true (elem_ptr 0 1 smith20) (elem_ptr 0 2 smith19) <= 0 ->
   compare_year true (elem_ptr 0 0 jones20) (elem_ptr 0 2 smith19) <= 0) /\
  (compare_year true (elem_ptr 0 0 jones20) (elem_ptr 0 1 smith20) = 0 <->
   year jones20 = year smith20 /\
   normalized (author jones20) = normalized (author smith20)).
Proof.
  split; [reflexivity|]. split; [reflexivity|]. split; [reflexivity|].
  exact (compare_year_is_an_order true (elem_ptr 0 0 jones20) (elem_ptr 0 1 smith20)
           (elem_ptr 0 2 smith19) eq_refl eq_refl eq_refl).
Defined.

(** X10.  When the authors differ once their first letter is in upper case,
    [compare] of parse_theses.c goes by the authors alone: its sign is that
    of the comparison of the two names byte by byte, and swapping the
    arguments negates the result.  Where the structs lie plays no part. *)
Theorem compare_alpha_author_first (cs : bool) (s1 s2 : ptr) :
  cstrings (target s1) = true -> cstrings (target s2) = true ->
  normalized (author (target s1)) <> normalized (author (target s2)) ->
  (compare_alpha cs s1 s2 ?= 0)
  = String.compare (normalized (author (target s1)))
                   (normalized (author (target s2))) /\
  compare_alpha cs s2 s1 = - compare_alpha cs s1 s2.
Proof.
  intros (Ha1 & _)%cstrings_fields (Ha2 & _)%cstrings_fields Hne.
  apply normalized_cstring in Ha1, Ha2.
  unfold compare_alpha. cbv zeta. rewrite !upper_first_normalized.
  rewrite (LibcFacts.strcmp_antisym (normalized (author (target s1)))
                                    (normalized (author (target s2)))).
  destruct (Z.eqb_spec (Libc.strcmp (normalized (author (target s1)))
                                    (normalized (author (target s2)))) 0) as [E|N].
  - by apply LibcFacts.strcmp_eq in E.
  - split; [by apply LibcFacts.strcmp_compare|].
    destruct (Z.eqb_spec (- Libc.strcmp (normalized (author (target s1)))
                                        (normalized (author (target s2)))) 0); [lia|done].
Qed.

Lemma compare_alpha_author_first_witness :
  cstrings bob = true /\ cstrings amy = true /\
  normalized (author bob) <> normalized (author amy) /\
  (compare_alpha true (elem_ptr 0 0 bob) (elem_ptr 0 1 amy) ?= 0) = Gt /\
  compare_alpha true (elem_ptr 0 1 amy) (elem_ptr 0 0 bob)
    = - compare_alpha true (elem_ptr 0 0 bob) (elem_ptr 0 1 amy).
Proof.
  assert (Hne : normalized (author bob) <> normalized (author amy)) by done.
  split; [reflexivity|]. split; [reflexivity|]. split; [exact Hne|].
  exact (compare_alpha_author_first true (elem_ptr 0 0 bob) (elem_ptr 0 1 amy)
           eq_refl eq_refl Hne).
Defined.

(** ** The counts at the foot of the page *)

Lemma strcmp_zero_iff a b :
  is_cstring a = true -> is_cstring b = true -> Libc.strcmp a b = 0 <-> a = b.
Proof.
  intros Ha Hb. split; [by apply LibcFacts.strcmp_eq|].
  intros ->. apply LibcFacts.strcmp_refl.
Qed.

Lemma count_degree_spec e ms_cnt phd_cnt :
  is_cstring (degree e) = true ->
  count_degree e (ms_cnt, phd_cnt) =
  ((ms_cnt + with_degree "MS" [e])%nat, (phd_cnt + with_degree "PhD" [e])%nat).
Proof.
  intros Hd. unfold count_degree, with_degree.
  pose proof (strcmp_zero_iff (degree e) "MS" Hd eq_refl) as Hms.
  pose proof (strcmp_zero_iff (degree e) "PhD" Hd eq_refl) as Hphd.
  rewrite !filter_cons, !filter_nil.
  destruct (Z.eqb_spec (Libc.strcmp (degree e) "MS") 0) as [E|N].
  - apply Hms in E. rewrite decide_True by done.
    rewrite decide_False by (rewrite E; done). simpl. f_equal; lia.
  - rewrite decide_False by (intros E; apply N, Hms, E).
    destruct (Z.eqb_spec (Libc.strcmp (degree e) "PhD") 0) as [E|N'].
    + apply Hphd in E. rewrite decide_True by done. simpl. f_equal; lia.
    + rewrite decide_False by (intros E; apply N', Hphd, E). simpl. f_equal; lia.
Qed.

Lemma with_degree_cons d e es :
  with_degree d (e :: es) = (with_degree d [e] + with_degree d es)%nat.
Proof.
  unfold with_degree. rewrite !filter_cons, filter_nil.
  destruct (decide (degree e = d)); simpl; lia.
Qed.

Lemma with_degree_le es :
  (with_degree "MS" es + with_degree "PhD" es <= length es)%nat.
Proof.
  induction es as [|e es IH]; [done|].
  rewrite !(with_degree_cons _ e es). unfold with_degree at 1 3.
  rewrite !filter_cons, !filter_nil.
  destruct (decide (degree e = "MS")) as [E|]; destruct (decide (degree e = "PhD"));
    simpl; try lia. rewrite E in *. done.
Qed.

Lemma for_each_counts {S} (body : thesis -> S * (nat * nat) -> list call * (S * (nat * nat))) es :
  (forall e st c, (body e (st, c)).2.2 = count_degree e c) ->
  Forall (fun e => is_cstring (degree e) = true) es ->
  forall st ms_cnt phd_cnt,
    (for_each body es (st, (ms_cnt, phd_cnt))).2.2 =
    ((ms_cnt + with_degree "MS" es)%nat, (phd_cnt + with_degree "PhD" es)%nat).
Proof.
  intros Hbody Hes. induction Hes as [|e es He _ IH]; intros st ms_cnt phd_cnt.
  - cbn [for_each snd]. unfold with_degree. simpl. f_equal; lia.
  - cbn [for_each]. specialize (Hbody e st (ms_cnt, phd_cnt)).
    destruct (body e (st, (ms_cnt, phd_cnt))) as [cs [st' c']]. cbn [snd] in Hbody.
    subst c'. rewrite count_degree_spec by done.
    specialize (IH st' (ms_cnt + with_degree "MS" [e])%nat
                       (phd_cnt + with_degree "PhD" [e])%nat).
    destruct (for_each body es _) as [cs' [st'' c'']]. cbn [snd] in IH |- *.
    rewrite IH, !(with_degree_cons _ e es). f_equal; lia.
Qed.

Lemma alpha_body_counts cs e j c : (alpha_body cs e (j, c)).2.2 = count_degree e c.
Proof. unfold alpha_body. by destruct (_ && _). Qed.

Lemma year_body_counts e y c : (year_body e (y, c)).2.2 = count_degree e c.
Proof. unfold year_body. by destruct (negb _). Qed.

(** X11.  The closing lines of both pages give the number of entries, the
    number of those whose degree is MS to the letter and the number of those
    whose degree is PhD to the letter.  Any other degree is in neither
    count, so the two never add up to more than the number of entries. *)
Theorem footer_counts_degrees (cs : bool) (e0 : thesis) (es : list thesis) :
  Forall (fun e => is_cstring (degree e) = true) (e0 :: es) ->
  let n := length (e0 :: es) in
  let ms_cnt := with_degree "MS" (e0 :: es) in
  let phd_cnt := with_degree "PhD" (e0 :: es) in
  (exists page, write_html_alpha cs (e0 :: es) n
                = Some (page ++ footer n ms_cnt phd_cnt)) /\
  (exists page, write_html_year (Some (e0 :: es)) n
                = Some (page ++ footer n ms_cnt phd_cnt)) /\
  (ms_cnt + phd_cnt <= n)%nat.
Proof.
  intros Hd n ms_cnt phd_cnt. subst n ms_cnt phd_cnt. split_and!.
  - destruct (write_html_alpha_some cs (e0 :: es) (length (e0 :: es)) ltac:(done))
      as (body & j & ms & phd & Hb & ->).
    rewrite firstn_all in Hb.
    pose proof (for_each_counts (alpha_body cs) (e0 :: es) (alpha_body_counts cs) Hd
                  0%nat 0%nat 0%nat) as Hc.
    rewrite Hb in Hc. cbn [snd] in Hc. injection Hc as -> ->.
    exists (alpha_header ++ body). by rewrite <-app_assoc.
  - destruct (write_html_year_some e0 es (length (e0 :: es)) ltac:(simpl; lia))
      as (links & y & body & y' & ms & phd & _ & Hb & ->).
    rewrite firstn_all in Hb.
    pose proof (for_each_counts year_body (e0 :: es) year_body_counts Hd
                  (year e0) 0%nat 0%nat) as Hc.
    rewrite Hb in Hc. cbn [snd] in Hc. injection Hc as -> ->.
    eexists. rewrite !app_assoc. reflexivity.
  - apply with_degree_le.
Qed.

Lemma footer_counts_degrees_witness :
  Forall (fun e => is_cstring (degree e) = true) degrees_sample /\
  (exists page, write_html_alpha true degrees_sample 4
                = Some (page ++ footer 4 2 1)) /\
  (exists page, write_html_year (Some degrees_sample) 4
                = Some (page ++ footer 4 2 1)) /\
  (2 + 1 <= 4)%nat.
Proof.
  assert (H : Forall (fun e => is_cstring (degree e) = true) degrees_sample)
    by (repeat constructor).
  split; [exact H|].
  exact (footer_counts_degrees true adams
           [harris; set_degree "MS" zimmer; set_degree "Other" jones20] H).
Defined.

(** ** The anchors of the alphabetical page *)

Lemma alpha_anchors_from cs es : forall j c out j' c',
  (j <= 4)%nat ->
  for_each (alpha_body cs) es (j, c) = (out, (j', c')) ->
  (j <= j' <= 4)%nat /\ (j' <= j + length es)%nat /\
  select [Fmt.alph_anchor] out =
  map (fun a => Fprintf Fmt.alph_anchor [Str a]) (take (j' - j) (drop j alph)).
Proof.
  induction es as [|e es IH]; intros j c out j' c' Hj.
  - cbn [for_each length]. intros [= <- <- <-]. rewrite Nat.sub_diag.
    split; [lia|]. split; [lia|done].
  - cbn [for_each]. unfold alpha_body at 1.
    destruct ((j <? 4)%nat && _) eqn:Hcond.
    + apply andb_true_iff in Hcond as [Hlt%Nat.ltb_lt _].
      destruct (for_each (alpha_body cs) es (S j, count_degree e c))
        as [cs' [j1 c1]] eqn:E.
      cbv beta iota zeta. intros H.
      apply (f_equal fst) in H as Hout. apply (f_equal snd) in H.
      cbn [fst snd] in Hout, H. injection H as <- <-. subst out.
      assert (Hj1 : (S j <= 4)%nat) by lia.
      destruct (IH _ _ _ _ _ Hj1 E) as (Hj' & Hlen & Hsel).
      cbn [length]. split; [lia|]. split; [lia|].
      rewrite !select_app, select_cons, select_nil, Hsel.
      rewrite (select_disjoint _ _ _ (table_calls e)) by done.
      decide_fmt. cbn [app].
      replace (j1 - j)%nat with (S (j1 - S j)) by lia.
      assert (Hdrop : drop j alph = alph_at j :: drop (S j) alph).
      { clear -Hlt. do 4 (destruct j as [|j]; [done|]). lia. }
      rewrite Hdrop. done.
    + destruct (for_each (alpha_body cs) es (j, count_degree e c))
        as [cs' [j1 c1]] eqn:E.
      cbv beta iota zeta. intros H.
      apply (f_equal fst) in H as Hout. apply (f_equal snd) in H.
      cbn [fst snd] in Hout, H. injection H as <- <-. subst out.
      destruct (IH _ _ _ _ _ Hj E) as (Hj' & Hlen & Hsel).
      cbn [length]. split; [lia|]. split; [lia|].
      rewrite !select_app, select_nil, Hsel.
      rewrite (select_disjoint _ _ _ (table_calls e)) by done. done.
Qed.

(** X12.  Whatever the entries and their order, the anchors of the
    alphabetical page are the first [k] of A-G, H-N, O-U and V-Z, in this
    order and each once, for a [k] that is at most 4 and at most the
    number of entries. *)
Theorem alpha_anchors_in_order (cs : bool) (es : list thesis) :
  exists out k,
    write_html_alpha cs es (length es) = Some out /\
    (k <= 4)%nat /\ (k <= length es)%nat /\
    map args (select [Fmt.alph_anchor] out) = map (fun a => [Str a]) (take k alph).
Proof.
  destruct (write_html_alpha_some cs es (length es) ltac:(done))
    as (body & j & ms & phd & Hb & ->).
  rewrite firstn_all in Hb.
  assert (H0 : (0 <= 4)%nat) by lia.
  destruct (alpha_anchors_from cs es _ _ _ _ _ H0 Hb) as (Hj & Hlen & Hsel).
  eexists. exists j. split; [done|]. split; [lia|]. split; [lia|].
  rewrite !select_app, Hsel.
  rewrite (select_disjoint _ _ _ (footer_calls _ _ _)) by done.
  replace (select [Fmt.alph_anchor] alpha_header) with (@nil call) by (by vm_compute).
  rewrite app_nil_r, Nat.sub_0_r. cbn [app drop]. by rewrite map_map.
Qed.

Lemma alpha_body_eq cs e j c :
  alpha_body cs e (j, c) =
  if (j <? 4)%nat && (bucket_start cs j <=? letter cs e)
  then (anchor j :: table e, (S j, count_degree e c))
  else (table e, (j, count_degree e c)).
Proof.
  unfold alpha_body, bucket_start, letter, anchor. by destruct (_ && _).
Qed.

Lemma for_each_app {S} (body : thesis -> S -> list call * S) l1 l2 st :
  for_each body (l1 ++ l2) st =
  ((for_each body l1 st).1 ++ (for_each body l2 (for_each body l1 st).2).1,
   (for_each body l2 (for_each body l1 st).2).2).
Proof.
  revert st. induction l1 as [|e l1 IH]; intros st.
  - cbn [app for_each fst snd]. by destruct (for_each body l2 st).
  - cbn [app for_each]. destruct (body e st) as [cs st1]. rewrite IH.
    destruct (for_each body l1 st1) as [cs1 st2]. cbn [fst snd].
    destruct (for_each body l2 st2) as [cs2 st3]. cbn [fst snd].
    by rewrite app_assoc.
Qed.

Lemma bucket_no_anchor cs g : forall j c,
  Forall (fun e => (j < 4)%nat -> letter cs e < bucket_start cs j) g ->
  exists c', for_each (alpha_body cs) g (j, c) = (flat_map table g, (j, c')).
Proof.
  induction g as [|e g IH]; intros j c Hg; [by exists c|].
  apply Forall_cons in Hg as [He Hg].
  cbn [for_each flat_map]. rewrite alpha_body_eq.
  destruct (Nat.ltb_spec j 4) as [Hj|Hj]; cbn [andb].
  - destruct (Z.leb_spec (bucket_start cs j) (letter cs e)) as [Hle|_];
      [specialize (He Hj); lia|].
    destruct (IH j (count_degree e c) Hg) as [c' ->]. by exists c'.
  - destruct (IH j (count_degree e c) Hg) as [c' ->]. by exists c'.
Qed.

Lemma bucket_anchor cs e g j c :
  (j < 4)%nat -> Forall (in_bucket cs j) (e :: g) ->
  exists c', for_each (alpha_body cs) (e :: g) (j, c)
             = (anchor j :: flat_map table (e :: g), (S j, c')).
Proof.
  intros Hj Hg. apply Forall_cons in Hg as [[He _] Hg].
  cbn [for_each flat_map]. rewrite alpha_body_eq.
  destruct (Nat.ltb_spec j 4) as [_|?]; [|lia]. cbn [andb].
  destruct (Z.leb_spec (bucket_start cs j) (letter cs e)) as [_|?]; [|lia].
  destruct (bucket_no_anchor cs g (S j) (count_degree e c)) as [c' ->].
  { eapply Forall_impl; [exact Hg|]. intros x [_ Hx] Hlt. apply Hx. lia. }
  by exists c'.
Qed.

(** X13.  When each of the four buckets has an entry and the entries come
    bucket after bucket, every anchor stands in front of the first table of
    its bucket: the page is the header, then for each bucket its anchor and
    the tables of its entries, then the closing lines. *)
Theorem alpha_anchors_at_bucket_starts (cs : bool)
    (a h o v : thesis) (ga gh go gv : list thesis) :
  Forall (in_bucket cs 0) (a :: ga) -> Forall (in_bucket cs 1) (h :: gh) ->
  Forall (in_bucket cs 2) (o :: go) -> Forall (in_bucket cs 3) (v :: gv) ->
  let es := (a :: ga) ++ (h :: gh) ++ (o :: go) ++ (v :: gv) in
  exists ms_cnt phd_cnt,
    write_html_alpha cs es (length es) =
    Some (alpha_header
          ++ (anchor 0 :: flat_map table (a :: ga))
          ++ (anchor 1 :: flat_map table (h :: gh))
          ++ (anchor 2 :: flat_map table (o :: go))
          ++ (anchor 3 :: flat_map table (v :: gv))
          ++ footer (length es) ms_cnt phd_cnt).
Proof.
  intros Ha Hh Ho Hv es.
  destruct (write_html_alpha_some cs es (length es) ltac:(done))
    as (body & j & ms & phd & Hb & ->).
  rewrite firstn_all in Hb. exists ms, phd. do 2 f_equal.
  apply (f_equal fst) in Hb. cbn [fst] in Hb. subst body es.
  rewrite for_each_app.
  destruct (bucket_anchor cs a ga 0 (0, 0)%nat ltac:(lia) Ha) as [c1 ->].
  cbn [fst snd]. rewrite for_each_app.
  destruct (bucket_anchor cs h gh 1 c1 ltac:(lia) Hh) as [c2 ->].
  cbn [fst snd]. rewrite for_each_app.
  destruct (bucket_anchor cs o go 2 c2 ltac:(lia) Ho) as [c3 ->].
  cbn [fst snd].
  destruct (bucket_anchor cs v gv 3 c3 ltac:(lia) Hv) as [c4 ->].
  cbn [fst]. by rewrite <-!app_assoc.
Qed.

Lemma alpha_anchors_at_bucket_starts_witness :
  Forall (in_bucket true 0) [adams] /\ Forall (in_bucket true 1) [harris] /\
  Forall (in_bucket true 2) [smith20; smith19] /\ Forall (in_bucket true 3) [zimmer] /\
  exists ms_cnt phd_cnt,
    write_html_alpha true [adams; harris; smith20; smith19; zimmer] 5 =
    Some (alpha_header
          ++ (anchor 0 :: flat_map table [adams])
          ++ (anchor 1 :: flat_map table [harris])
          ++ (anchor 2 :: flat_map table [smith20; smith19])
          ++ (anchor 3 :: flat_map table [zimmer])
          ++ footer 5 ms_cnt phd_cnt).
Proof.
  assert (Ha : Forall (in_bucket true 0) [adams])
    by (repeat constructor; vm_compute; done).
  assert (Hh : Forall (in_bucket true 1) [harris])
    by (repeat constructor; vm_compute; done).
  assert (Ho : Forall (in_bucket true 2) [smith20; smith19])
    by (repeat constructor; vm_compute; done).
  assert (Hv : Forall (in_bucket true 3) [zimmer])
    by (repeat constructor; vm_compute; try done; lia).
  split; [exact Ha|]. split; [exact Hh|]. split; [exact Ho|]. split; [exact Hv|].
  exact (alpha_anchors_at_bucket_starts true adams harris smith20 zimmer
           [] [] [smith19] [] Ha Hh Ho Hv).
Defined.

Lemma bucket_start_A cs : bucket_start cs 0 = 65.
Proof. by destruct cs. Qed.




(** A byte below A is filed below A, with either signedness of [char]. *)
Lemma low_byte_letter cs c :
  Libc.code c < 65 -> Libc.toupper (Libc.int_of_char cs c) < 65.
Proof.
  intros Hc. pose proof (LibcFacts.code_range c).
  unfold Libc.toupper, Libc.int_of_char.
  destruct (Z.leb_spec 128 (Libc.code c)); [lia|]. rewrite andb_false_r.
  destruct (Z.leb_spec 97 (Libc.code c)); [lia|]. cbn [andb].
  destruct (Z.ltb_spec (Libc.code c) (-1)); [lia|]. rewrite andb_false_r. lia.
Qed.





(** X14.  Entries whose author starts with a byte below the letter A (no
    author at all, a digit, a space in front of the name) get no anchor,
    with either signedness of [char].  A page of such entries has the four
    links of its header and not one anchor for them to lead to. *)
Theorem alpha_anchor_needs_letter (cs : bool) (es : list thesis) :
  Forall (fun e => Libc.code (first_char (author e)) < 65) es ->
  exists ms_cnt phd_cnt,
    write_html_alpha cs es (length es)
    = Some (alpha_header ++ flat_map table es ++ footer (length es) ms_cnt phd_cnt).
Proof.
  intros Hes.
  destruct (write_html_alpha_some cs es (length es) ltac:(done))
    as (body & j & ms & phd & Hb & ->).
  rewrite firstn_all in Hb.
  destruct (bucket_no_anchor cs es 0 (0, 0)%nat) as [c' Hc'].
  { eapply Forall_impl; [exact Hes|]. intros e He _.
    rewrite bucket_start_A. by apply low_byte_letter. }
  rewrite Hb in Hc'. apply (f_equal fst) in Hc'. cbn [fst] in Hc'. subst body.
  by exists ms, phd.
Qed.

Lemma alpha_anchor_needs_letter_witness :
  Forall (fun e => Libc.code (first_char (author e)) < 65) [anonymous; three_m] /\
  exists ms_cnt phd_cnt,
    write_html_alpha true [anonymous; three_m] 2
    = Some (alpha_header ++ flat_map table [anonymous; three_m]
            ++ footer 2 ms_cnt phd_cnt).
Proof.
  assert (H : Forall (fun e => Libc.code (first_char (author e)) < 65)
                     [anonymous; three_m])
    by (repeat constructor).
  split; [exact H|]. exact (alpha_anchor_needs_letter true [anonymous; three_m] H).
Defined.



(** ** Links and anchors of the year page *)

Lemma changes_length y l : (length (changes y l) <= length l)%nat.
Proof.
  revert y. induction l as [|x l IH]; intros y; [done|].
  cbn [changes length]. destruct (negb _); cbn [length]; [specialize (IH x)|specialize (IH y)]; lia.
Qed.

(** X16.  In whatever order the entries are, the year page has an anchor
    and a heading for every link and a link for every anchor, with the same
    years in the same order: the year of the first entry, then every year
    that [strcmp] tells from the year in front of it.  They are never more
    than the entries. *)
Theorem year_links_have_anchors (e0 : thesis) (es : list thesis) :
  let ys := year e0 :: changes (year e0) (map year es) in
  exists out,
    write_html_year (Some (e0 :: es)) (length (e0 :: es)) = Some out /\
    map args (select [Fmt.year_link; Fmt.year_link_next] out)
      = map (fun y => [Str y; Str y]) ys /\
    map args (select [Fmt.year_anchor] out) = map (fun y => [Str y]) ys /\
    map args (select [Fmt.year_heading] out) = map (fun y => [Str y]) ys /\
    (length ys <= length (e0 :: es))%nat.
Proof.
  intros ys.
  destruct (write_html_year_tables e0 es (length (e0 :: es)) ltac:(simpl; lia))
    as (out & Hout & _ & _).
  exists out. split; [done|].
  assert (Hys : changes (year e0) (map year (e0 :: es)) = changes (year e0) (map year es)).
  { cbn [map changes]. by rewrite LibcFacts.strcmp_refl. }
  split_and!.
  - rewrite (year_page_select _ _ _ _ Hout) by done. rewrite Hys.
    rewrite select_year_labels. decide_fmt. cbn [app].
    rewrite flat_map_nil, app_nil_r. subst ys. cbn [map]. by rewrite map_map.
  - rewrite (year_page_select _ _ _ _ Hout) by done. rewrite Hys.
    rewrite select_year_labels. unfold year_label. rewrite !select_cons, select_nil.
    decide_fmt. cbn [app]. rewrite flat_map_singleton.
    subst ys. cbn [map]. by rewrite map_map.
  - rewrite (year_page_select _ _ _ _ Hout) by done. rewrite Hys.
    rewrite select_year_labels. unfold year_label. rewrite !select_cons, select_nil.
    decide_fmt. cbn [app]. rewrite flat_map_singleton.
    subst ys. cbn [map]. by rewrite map_map.
  - subst ys. cbn [length]. pose proof (changes_length (year e0) (map year es)) as H.
    rewrite length_map in H. lia.
Qed.

(** ** How [main] ends *)

Lemma qsort_nil (qsort : (ptr -> ptr -> Z) -> list thesis -> list thesis) cmp :
  (forall cmp es, Permutation (qsort cmp es) es) -> qsort cmp [] = [].
Proof. intros H. apply Permutation_nil. symmetry. apply H. Qed.

(** X17.  How [main] of parse_theses.c ends, for a file name that fits
    [fname] and a [qsort] that permutes.  With no file to open it returns
    -1, the message with the name on stderr and nothing on stdout.  With
    [MAX_DOC] entries or more in the file it returns -1, the two messages on
    stderr and nothing on stdout.  Otherwise it returns 0 with nothing on
    stderr, and the page is the header, the tables of the entries in the
    order [qsort] left them, and the closing lines with their number; when
    the file is too short for an entry the closing lines follow the header
    at once.  No run reads outside the array. *)
Theorem main_alpha_outcomes (cs : bool) (indet : thesis)
    (qsort : (ptr -> ptr -> Z) -> list thesis -> list thesis)
    (fopen : string -> option FILE) (argv : list string) :
  (forall cmp es, Permutation (qsort cmp es) es) ->
  (String.length (input_name argv) < STRLEN)%nat ->
  match fopen (input_name argv) with
  | None =>
      main_alpha cs indet qsort fopen argv =
      Some (Result (-1) [] [Fprintf Fmt.not_found [Str (input_name argv)]])
  | Some fp =>
      let n := ((length (read_lines fp) + 1) / 8)%nat in
      if decide (n < MAX_DOC)%nat
      then exists body ms_cnt phd_cnt,
             main_alpha cs indet qsort fopen argv =
             Some (Result 0 (alpha_header ++ body ++ footer n ms_cnt phd_cnt) []) /\
             select table_fmts body
             = flat_map table (qsort (compare_alpha cs) (records (read_lines fp))) /\
             (n = 0%nat -> body = [] /\ ms_cnt = 0%nat /\ phd_cnt = 0%nat)
      else main_alpha cs indet qsort fopen argv =
           Some (Result (-1) []
                   [Fprintf Fmt.too_many []; Fprintf Fmt.parse_failed []])
  end.
Proof.
  intros Hperm _. destruct (fopen (input_name argv)) as [fp|] eqn:Hfp.
  2: { unfold main_alpha. by rewrite Hfp. }
  cbv zeta. rewrite <-records_length.
  destruct (decide (length (records (read_lines fp)) < MAX_DOC)%nat) as [Hn|Hn].
  2: { apply (main_alpha_full cs indet qsort fopen argv fp Hfp). lia. }
  unfold main_alpha. rewrite Hfp, parse_text_alpha_below by done.
  cbv zeta iota beta.
  destruct (Z.eqb_spec (Z.of_nat (length (records (read_lines fp)))) (-1)) as [?|_]; [lia|].
  rewrite Nat2Z.id.
  set (n := length (records (read_lines fp))).
  assert (Htake : take n (layout indet (read_lines fp)
                   ++ replicate (MAX_DOC - length (layout indet (read_lines fp))) indet)
                  = records (read_lines fp)).
  { destruct (layout_records indet (read_lines fp)) as (tl & -> & _).
    rewrite <-app_assoc. by apply take_app_length. }
  unfold qsort_array. rewrite Htake.
  pose proof (Hperm (compare_alpha cs) (records (read_lines fp))) as Hp.
  pose proof (Permutation_length Hp) as Hlen. fold n in Hlen.
  set (sorted := qsort (compare_alpha cs) (records (read_lines fp))) in *.
  set (rest := drop n _).
  destruct (write_html_alpha_some cs (sorted ++ rest) n) as
    (body & j & ms & phd & Hb & ->); [rewrite length_app; lia|].
  exists body, ms, phd. split; [done|].
  rewrite take_app_length' in Hb by done. split.
  - replace body with (for_each (alpha_body cs) sorted (0, (0, 0))%nat).1
      by (by rewrite Hb).
    apply for_each_select. intros. rewrite alpha_body_select by done.
    apply select_table.
  - intros H0. destruct sorted; [|simpl in Hlen; lia].
    cbn [for_each] in Hb. by injection Hb as <- <- <- <-.
Qed.

Lemma main_alpha_outcomes_witness :
  (forall cmp es, Permutation (insertion_qsort cmp es) es) /\
  (String.length (input_name ["parse_theses"; "theses.txt"]) < STRLEN)%nat /\
  exists body ms_cnt phd_cnt,
    main_alpha true junk insertion_qsort (fun _ => Some (groups_file 2))
               ["parse_theses"; "theses.txt"] =
    Some (Result 0 (alpha_header ++ body ++ footer 2 ms_cnt phd_cnt) []) /\
    select table_fmts body
    = flat_map table (insertion_qsort (compare_alpha true)
                        (records (read_lines (groups_file 2)))) /\
    (2%nat = 0%nat -> body = [] /\ ms_cnt = 0%nat /\ phd_cnt = 0%nat).
Proof.
  assert (Hn : (String.length (input_name ["parse_theses"; "theses.txt"]) < STRLEN)%nat)
    by (vm_compute; lia).
  split; [exact insertion_qsort_perm|]. split; [exact Hn|].
  exact (main_alpha_outcomes true junk insertion_qsort
           (fun _ => Some (groups_file 2)) ["parse_theses"; "theses.txt"]
           insertion_qsort_perm Hn).
Defined.

Lemma main_year_run cs indet qsort fopen argv fp :
  fopen (input_name argv) = Some fp -> fp <> EmptyString ->
  exists tl,
    layout indet (read_lines fp) = records (read_lines fp) ++ tl /\
    main_year cs indet qsort fopen argv =
    match write_html_year
            (Some (qsort (compare_year cs) (records (read_lines fp)) ++ tl))
            (length (records (read_lines fp))) with
    | Some out => Some (Result 0 out [])
    | None => None
    end.
Proof.
  intros Hfp Hne. unfold main_year. rewrite Hfp, parse_text_year_spec.
  destruct (read_lines fp) as [|l ls] eqn:Hlines; [by apply read_lines_nil in Hlines|].
  rewrite <-Hlines. clear l ls Hlines. cbv zeta iota beta.
  destruct (Z.eqb_spec (Z.of_nat (length (records (read_lines fp)))) (-1)) as [?|_]; [lia|].
  cbn [fmap option_fmap option_map]. unfold qsort_array.
  rewrite layout_take_records.
  destruct (layout_records indet (read_lines fp)) as (tl & Hlay & Htl).
  exists tl. split; [done|].
  rewrite Hlay at 1. by rewrite drop_app_length.
Qed.

Lemma layout_nonempty indet lines : lines <> [] -> layout indet lines <> [].
Proof. destruct lines as [|a rest]; [done|]. intros _. do 7 (try destruct rest as [|? rest]); done. Qed.

(** X18.  How [main] of parse_theses_year.c ends, for a file name that fits
    [fname], a [qsort] that permutes and a memory that holds a C string
    where the year of a new struct is.  With no file to open it returns
    -1, the message with the name on stderr and nothing on stdout.  On the
    empty file [write_html] reads through the NULL pointer.  On any other
    file it returns 0 with nothing on stderr: the tables are those of the
    entries in the order [qsort] left them, and the closing lines give
    their number, [(reads + 1) / 8] for the reads of the [fgets] loop.  The
    message of a failed parse is never printed. *)
Theorem main_year_outcomes (cs : bool) (indet : thesis)
    (qsort : (ptr -> ptr -> Z) -> list thesis -> list thesis)
    (fopen : string -> option FILE) (argv : list string) :
  (forall cmp es, Permutation (qsort cmp es) es) ->
  (String.length (input_name argv) < STRLEN)%nat ->
  (String.length (year indet) < STRLEN)%nat ->
  match fopen (input_name argv) with
  | None =>
      main_year cs indet qsort fopen argv =
      Some (Result (-1) [] [Fprintf Fmt.not_found [Str (input_name argv)]])
  | Some fp =>
      if decide (fp = EmptyString)
      then main_year cs indet qsort fopen argv = None
      else exists out,
             main_year cs indet qsort fopen argv = Some (Result 0 out []) /\
             select table_fmts out
             = flat_map table (qsort (compare_year cs) (records (read_lines fp))) /\
             select [Fmt.n_items] out
             = [Fprintf Fmt.n_items
                  [Int (Z.of_nat ((length (read_lines fp) + 1) / 8))]]
  end.
Proof.
  intros Hperm _ _. destruct (fopen (input_name argv)) as [fp|] eqn:Hfp.
  2: { unfold main_year. by rewrite Hfp. }
  destruct (decide (fp = EmptyString)) as [->|Hne].
  { unfold main_year. by rewrite Hfp. }
  destruct (main_year_run cs indet qsort fopen argv fp Hfp Hne) as (tl & Hlay & ->).
  pose proof (Hperm (compare_year cs) (records (read_lines fp))) as Hp.
  pose proof (Permutation_length Hp) as Hlen.
  set (sorted := qsort (compare_year cs) (records (read_lines fp))) in *.
  set (n := length (records (read_lines fp))) in *.
  destruct (sorted ++ tl) as [|e0 arr] eqn:Harr.
  { apply app_eq_nil in Harr as [Hs ->]. rewrite app_nil_r in Hlay.
    assert (Hl : read_lines fp <> []) by (by rewrite read_lines_nil).
    apply (layout_nonempty indet) in Hl. rewrite Hlay in Hl.
    rewrite Hs in Hlen. simpl in Hlen. by destruct (records (read_lines fp)). }
  assert (Hnum : (n <= S (length arr))%nat).
  { apply (f_equal length) in Harr. rewrite length_app in Harr. simpl in Harr. lia. }
  destruct (write_html_year_some e0 arr n Hnum)
    as (links & y & body & y' & ms & phd & Hl & Hb & Hout).
  destruct (write_html_year_tables e0 arr n Hnum) as (out & Hout' & Hsel & _).
  rewrite Hout'. exists out. split; [done|]. split.
  - rewrite Hsel, <-Harr. by rewrite take_app_length' by done.
  - rewrite Hout in Hout'. apply (inj Some) in Hout'. subst out.
    rewrite !select_app.
    replace links with (for_each year_nav_body (take n (e0 :: arr)) (year e0)).1
      by (by rewrite Hl).
    replace body with (for_each year_body (take n (e0 :: arr)) (year e0, (0, 0))%nat).1
      by (by rewrite Hb).
    rewrite (for_each_select _ _ (fun _ => []))
      by (intros; by apply year_nav_body_select).
    rewrite (for_each_select _ _ (fun _ => []))
      by (intros; rewrite year_body_select by done;
          apply (select_disjoint _ _ _ (table_calls _)); done).
    rewrite !flat_map_nil. unfold footer. select_calls.
    subst n. by rewrite records_length.
Qed.

Lemma main_year_outcomes_witness :
  (forall cmp es, Permutation (insertion_qsort cmp es) es) /\
  (String.length (input_name ["parse_theses_year"]) < STRLEN)%nat /\
  (String.length (year junk) < STRLEN)%nat /\
  exists out,
    main_year true junk insertion_qsort (fun _ => Some (groups_file 2))
              ["parse_theses_year"] = Some (Result 0 out []) /\
    select table_fmts out
    = flat_map table (insertion_qsort (compare_year true)
                        (records (read_lines (groups_file 2)))) /\
    select [Fmt.n_items] out
    = [Fprintf Fmt.n_items
         [Int (Z.of_nat ((length (read_lines (groups_file 2)) + 1) / 8))]].
Proof.
  assert (Hn : (String.length (input_name ["parse_theses_year"]) < STRLEN)%nat)
    by (vm_compute; lia).
  assert (Hj : (String.length (year junk) < STRLEN)%nat) by (vm_compute; lia).
  split; [exact insertion_qsort_perm|]. split; [exact Hn|]. split; [exact Hj|].
  exact (main_year_outcomes true junk insertion_qsort
           (fun _ => Some (groups_file 2)) ["parse_theses_year"]
           insertion_qsort_perm Hn Hj).
Defined.


(** X19.  A file of one to six lines, none of more than 510 bytes, has no
    entry, and parse_theses_year.c prints a page for it all the same: a
    link, an anchor and a heading for the year of the struct that was
    begun, and 0 for every count.  That year is the second line of the
    file; when the file has one line it is what the memory [malloc]
    returned held, taken to be a C string. *)
Theorem short_file_year_page (cs : bool) (indet : thesis)
    (qsort : (ptr -> ptr -> Z) -> list thesis -> list thesis)
    (fopen : string -> option FILE) (argv : list string) (fp : FILE) :
  (forall cmp es, Permutation (qsort cmp es) es) ->
  (String.length (input_name argv) < STRLEN)%nat ->
  (String.length (year indet) < STRLEN)%nat ->
  fopen (input_name argv) = Some fp ->
  short_lines fp ->
  (1 <= length (file_lines fp) <= 6)%nat ->
  main_year cs indet qsort fopen argv =
  Some (Result 0 (empty_year_page (first_year indet (file_lines fp))) []).
Proof.
  intros Hperm _ _ Hfp Hs Hlines.
  assert (Hlen : (1 <= length (read_lines fp) < 7)%nat)
    by (rewrite reads_count by done; lia).
  rewrite <-first_year_of_lines by done.
  assert (Hne : fp <> EmptyString).
  { intros ->. simpl in Hlen. lia. }
  destruct (main_year_run cs indet qsort fopen argv fp Hfp Hne) as (tl & Hlay & ->).
  destruct (layout_short indet (read_lines fp) Hlen) as (e & He & Hrec & Hy).
  rewrite Hrec in *. rewrite (qsort_nil qsort _ Hperm).
  cbn [app length] in *. rewrite He in Hlay. subst tl.
  unfold write_html_year, elems. cbn [lookup list_lookup length].
  rewrite decide_True by lia. cbn [take for_each]. by rewrite Hy.
Qed.

Lemma short_file_year_page_witness :
  (forall cmp es, Permutation (insertion_qsort cmp es) es) /\
  (String.length (input_name ["parse_theses_year"; "one.txt"]) < STRLEN)%nat /\
  (String.length (year junk) < STRLEN)%nat /\
  short_lines one_line /\
  (1 <= length (file_lines one_line) <= 6)%nat /\
  main_year true junk insertion_qsort (fun _ => Some one_line)
            ["parse_theses_year"; "one.txt"] =
  Some (Result 0 (empty_year_page (year junk)) []).
Proof.
  assert (Hn : (String.length (input_name ["parse_theses_year"; "one.txt"]) < STRLEN)%nat)
    by (vm_compute; lia).
  assert (Hj : (String.length (year junk) < STRLEN)%nat) by (vm_compute; lia).
  assert (Hs : short_lines one_line) by (unfold short_lines; decide_closed).
  assert (Hl : (1 <= length (file_lines one_line) <= 6)%nat) by (vm_compute; lia).
  split; [exact insertion_qsort_perm|]. split; [exact Hn|]. split; [exact Hj|].
  split; [exact Hs|]. split; [exact Hl|].
  exact (short_file_year_page true junk insertion_qsort (fun _ => Some one_line)
           ["parse_theses_year"; "one.txt"] one_line insertion_qsort_perm Hn Hj
           eq_refl Hs Hl).
Defined.
